(** * generate-icons.py: the PWA icon generator of Live Shopping Network

    A shallow embedding of [src/generate-icons.py] and the properties its
    specification states about it.  The script draws two icons with
    Pillow and writes them under a fixed directory.  Pillow and [os] are
    third-party code: the parts of them the script calls are modelled
    here from their documented behaviour, each in its own module, and
    the script itself ([create_icon], [main]) is translated line by
    line on top of them. *)

From Stdlib Require Import ZArith Lia Bool Ascii String.
From stdpp Require Import gmap strings list fin_maps.

Local Open Scope Z_scope.

(** ** Exceptions and results *)

(** A filesystem path is the list of its components below the root:
    ['/home/ubuntu'] is [["home"; "ubuntu"]] and ['/'] is [[]]. *)
Abbreviation path := (list string).

(** The [OSError] subclasses the calls of the script can raise. *)
Inductive os_error : Type :=
  | FileNotFoundError (p : path)
  | FileExistsError (p : path)
  | NotADirectoryError (p : path)
  | IsADirectoryError (p : path)
  | PermissionError (p : path).

Inductive exn : Type :=
  | ValueError (msg : string)
  | KeyError (key : string)
  | OSError (e : os_error).

(** The outcome of a call that may raise. *)
Inductive result (A : Type) : Type :=
  | Ok (a : A)
  | Raise (e : exn).
Arguments Ok {A} a.
Arguments Raise {A} e.

#[export] Instance result_ret : MRet result := fun A a => Ok a.
#[export] Instance result_bind : MBind result := fun A B f r =>
  match r with
  | Ok a => f a
  | Raise e => Raise e
  end.

(** ** Colours: [PIL.ImageColor] *)

Record rgba : Type := RGBA { red : Z; green : Z; blue : Z; alpha : Z }.

#[export] Instance rgba_eq_dec : EqDecision rgba.
Proof. solve_decision. Defined.

Module ImageColor.

Definition hex_digit (c : ascii) : option Z :=
  let n := Z.of_N (N_of_ascii c) in
  if (48 <=? n) && (n <=? 57) then Some (n - 48)          (* 0-9 *)
  else if (97 <=? n) && (n <=? 102) then Some (n - 87)    (* a-f *)
  else if (65 <=? n) && (n <=? 70) then Some (n - 55)     (* A-F *)
  else None.

Definition hex_byte (hi lo : ascii) : option Z :=
  h ← hex_digit hi; l ← hex_digit lo; Some (16 * h + l).

(** The entries of Pillow's colour table that matter here. *)
Definition colormap : list (string * string) :=
  [ ("white", "#ffffff"); ("black", "#000000"); ("purple", "#800080") ]%string.

Fixpoint lookup_name (name : string) (table : list (string * string)) : option string :=
  match table with
  | [] => None
  | (k, v) :: rest => if String.eqb name k then Some v else lookup_name name rest
  end.

(** ["#rrggbb"] and ["#rrggbbaa"]; a colour without alpha is opaque. *)
Definition parse_hex (s : string) : option rgba :=
  match s with
  | String "#" (String r1 (String r0 (String g1 (String g0 (String b1 (String b0 rest)))))) =>
      r ← hex_byte r1 r0; g ← hex_byte g1 g0; b ← hex_byte b1 b0;
      match rest with
      | EmptyString => Some (RGBA r g b 255)
      | String a1 (String a0 EmptyString) => a ← hex_byte a1 a0; Some (RGBA r g b a)
      | _ => None
      end
  | _ => None
  end.

(** [ImageColor.getrgb]: a colour name is replaced by its table entry,
    then the hexadecimal form is read. *)
Definition getrgb (color : string) : result rgba :=
  let spec := default color (lookup_name color colormap) in
  match parse_hex spec with
  | Some c => Ok c
  | None => Raise (ValueError "unknown color specifier")
  end.

End ImageColor.

(** ** Images: [PIL.Image] and [PIL.ImageDraw] *)

(** A bounding box [[x0, y0, x1, y1]]. *)
Record bbox : Type := Box { x0 : Z; y0 : Z; x1 : Z; y1 : Z }.

(** Arc angles.  Pillow measures them in degrees from three o'clock,
    increasing clockwise (the y axis of an image points down).  Only
    multiples of a quarter turn have an exact description over the
    integers, and the script passes no others. *)
Inductive angle : Type := deg0 | deg90 | deg180 | deg270 | deg360.

Definition quarter_turns (a : angle) : Z :=
  match a with deg0 => 0 | deg90 => 1 | deg180 => 2 | deg270 => 3 | deg360 => 4 end.

Inductive shape : Type :=
  | Ellipse (xy : bbox)
  | Rectangle (xy : bbox)
  | Arc (xy : bbox) (start stop : angle) (stroke : Z).

(** One drawing call: what was drawn, and the ink it was drawn with. *)
Record layer : Type := Layer { layer_shape : shape; layer_ink : rgba }.

(** An image is its canvas and the drawing calls made on it, oldest
    first; the value of a pixel is computed from them by [paint]. *)
Record image : Type := MkImage {
  mode : string;
  width : Z;
  height : Z;
  background : rgba;
  layers : list layer
}.

(** ** The world outside: files and the console *)

(** What a file holds.  PNG is lossless, so a PNG file is identified
    with the image it encodes. *)
Inductive file_data : Type :=
  | PNG (img : image)
  | Blob (bytes : list Z).

(** A directory or a file, with whether this process may write to it. *)
Inductive node : Type :=
  | Dir (writable : bool)
  | File (writable : bool) (data : file_data).

(** The lines the script prints. *)
Inductive console_line : Type :=
  | Generated (output_path : path) (size : Z)
  | AllGenerated.

Record world : Type := World {
  fs : gmap path node;
  stdout : list console_line;
  stderr : list exn
}.

(** A call of the script: it runs in a world, changes it, and returns
    or raises.  What was done before an exception stays done. *)
Definition M (A : Type) : Type := world -> result A * world.

#[export] Instance M_ret : MRet M := fun A a w => (Ok a, w).
#[export] Instance M_bind : MBind M := fun A B f m w =>
  match m w with
  | (Ok a, w') => f a w'
  | (Raise e, w') => (Raise e, w')
  end.

Definition lift {A : Type} (r : result A) : M A := fun w => (r, w).

(** [print(line)]; an output stream that cannot take the line is
    outside this model. *)
Definition print (line : console_line) : M unit := fun w =>
  (Ok tt, World (fs w) (stdout w ++ [line]) (stderr w)).

Module Raster.

(** The pixels of the box, both end points included. *)
Definition in_box (b : bbox) (x y : Z) : bool :=
  (x0 b <=? x) && (x <=? x1 b) && (y0 b <=? y) && (y <=? y1 b).

(** The ellipse with axes [a] and [b] around the origin, in doubled
    coordinates: the pixel [(x, y)] of a box is the point
    [(2x - x0 - x1, 2y - y0 - y1)], the box's centre is the origin and
    its sides are at distance [a = x1 - x0] and [b = y1 - y0].  This is
    the ideal ellipse.  Pillow's scan conversion follows it but rounds
    the outline its own way, so single pixels on the outline can differ
    (the corner pixels of very small icons, the ends of the top row of a
    large one); what is stated below about pixels does not depend on
    that rounding. *)
Definition in_ellipse (a b X Y : Z) : bool :=
  (0 <=? a) && (0 <=? b) && (Z.abs X <=? a) && (Z.abs Y <=? b)
  && (b * b * (X * X) + a * a * (Y * Y) <=? a * a * b * b).

(** The quarter of the plane between [90 q] and [90 (q + 1)] degrees,
    clockwise from three o'clock with y pointing down. *)
Definition in_quadrant (q X Y : Z) : bool :=
  match q mod 4 with
  | 0 => (0 <=? X) && (0 <=? Y)
  | 1 => (X <=? 0) && (0 <=? Y)
  | 2 => (X <=? 0) && (Y <=? 0)
  | _ => (0 <=? X) && (Y <=? 0)
  end.

(** The quarter turns swept from [start] to [stop]; an end angle
    before the start is taken one turn later. *)
Definition swept_turns (start stop : angle) : Z :=
  let d := quarter_turns stop - quarter_turns start in
  if d <? 0 then d + 4 else d.

Definition in_sweep (start stop : angle) (X Y : Z) : bool :=
  existsb (fun i => in_quadrant (quarter_turns start + i) X Y)
          (seqZ 0 (swept_turns start stop)).

(** The pixels a shape paints.  The stroke of an arc lies inside its
    ellipse, [stroke] pixels deep. *)
Definition covers (s : shape) (x y : Z) : bool :=
  match s with
  | Rectangle b => in_box b x y
  | Ellipse b =>
      in_ellipse (x1 b - x0 b) (y1 b - y0 b) (2 * x - x0 b - x1 b) (2 * y - y0 b - y1 b)
  | Arc b start stop stroke =>
      let a := x1 b - x0 b in
      let c := y1 b - y0 b in
      let X := 2 * x - x0 b - x1 b in
      let Y := 2 * y - y0 b - y1 b in
      in_ellipse a c X Y
      && negb (in_ellipse (a - 2 * stroke) (c - 2 * stroke) X Y)
      && in_sweep start stop X Y
  end.

(** Painter's algorithm: a later layer replaces what is under it (an
    [ImageDraw] on an RGBA image stores the ink, it does not blend). *)
Definition paint (ls : list layer) (bg : rgba) (x y : Z) : rgba :=
  fold_left (fun c l => if covers (layer_shape l) x y then layer_ink l else c) ls bg.

End Raster.

Module Image.

(** [Image.new(mode, (w, h), color)].  Pillow also gives up on a size
    that does not fit a C int or the memory at hand; sizes here are
    taken to fit. *)
Definition new (mode : string) (size : Z * Z) (color : rgba) : result image :=
  if (size.1 <? 0) || (size.2 <? 0)
  then Raise (ValueError "Width and height must be >= 0")
  else Ok (MkImage mode size.1 size.2 color []).

(** [img.getpixel((x, y))], [None] outside the image. *)
Definition getpixel (img : image) (x y : Z) : option rgba :=
  if (0 <=? x) && (x <? width img) && (0 <=? y) && (y <? height img)
  then Some (Raster.paint (layers img) (background img) x y)
  else None.

(** [img.tobytes()], one entry per pixel, row by row. *)
Definition tobytes (img : image) : list rgba :=
  y ← seqZ 0 (height img);
  x ← seqZ 0 (width img);
  [Raster.paint (layers img) (background img) x y].

End Image.

Module ImageDraw.

(** Pillow refuses a box whose second corner is before its first. *)
Definition check_box (b : bbox) : result unit :=
  if x1 b <? x0 b then Raise (ValueError "x1 must be greater than or equal to x0")
  else if y1 b <? y0 b then Raise (ValueError "y1 must be greater than or equal to y0")
  else Ok tt.

Definition draw (img : image) (s : shape) (ink : rgba) : image :=
  MkImage (mode img) (width img) (height img) (background img)
          (layers img ++ [Layer s ink]).

(** [draw.ellipse(xy, fill=...)]. *)
Definition ellipse (img : image) (xy : bbox) (fill : string) : result image :=
  ink ← ImageColor.getrgb fill;
  check_box xy;;
  Ok (draw img (Ellipse xy) ink).

(** [draw.rectangle(xy, fill=...)]. *)
Definition rectangle (img : image) (xy : bbox) (fill : string) : result image :=
  ink ← ImageColor.getrgb fill;
  check_box xy;;
  Ok (draw img (Rectangle xy) ink).

(** [draw.arc(xy, start, end, fill=..., width=...)]. *)
Definition arc (img : image) (xy : bbox) (start stop : angle)
    (fill : string) (stroke : Z) : result image :=
  ink ← ImageColor.getrgb fill;
  check_box xy;;
  Ok (draw img (Arc xy start stop stroke) ink).

End ImageDraw.

(** ** The script, part one: the drawing (lines 9 to 39 of the source) *)

(** [draw = ImageDraw.Draw(img)] draws on [img] itself, so each drawing
    call hands on the image it has drawn on.  Python's [//] on integers
    is floor division, which is [Z.div] for a positive divisor. *)
Definition draw_icon (size : Z) : result image :=
  (* Create image with transparency *)
  img ← Image.new "RGBA" (size, size) (RGBA 0 0 0 0);
  (* Draw purple circle background *)
  img ← ImageDraw.ellipse img (Box 0 0 size size) "#9333ea";
  (* Draw white inner circle for contrast *)
  let margin := size / 8 in
  img ← ImageDraw.ellipse img (Box margin margin (size - margin) (size - margin)) "white";
  (* Draw smaller purple circle *)
  let margin2 := size / 6 in
  img ← ImageDraw.ellipse img (Box margin2 margin2 (size - margin2) (size - margin2)) "#9333ea";
  (* Bag body *)
  let bag_top := size / 3 in
  let bag_bottom := size * 2 / 3 in
  let bag_left := size / 3 in
  let bag_right := size * 2 / 3 in
  img ← ImageDraw.rectangle img (Box bag_left bag_top bag_right bag_bottom) "white";
  (* Bag handle *)
  let handle_width := size / 8 in
  let handle_height := size / 6 in
  let handle_left := size / 2 - handle_width in
  let handle_right := size / 2 + handle_width in
  let handle_top := bag_top - handle_height / 2 in
  ImageDraw.arc img (Box handle_left handle_top handle_right (bag_top + handle_height / 2))
                deg0 deg180 "white" (size / 20).

(** ** Directories and files: [os] and [Image.save] *)

Module os.

(** [os.path.dirname]; the root is its own parent. *)
Definition dirname (p : path) : path := reverse (tail (reverse p)).

(** [os.path.join(dir, name)] for a relative [name]. *)
Definition path_join (dir : path) (name : string) : path := dir ++ [name].

Definition path_exists (p : path) : M bool := fun w =>
  (Ok (match fs w !! p with Some _ => true | None => false end), w).

Definition path_isdir (p : path) : M bool := fun w =>
  (Ok (match fs w !! p with Some (Dir _) => true | _ => false end), w).

(** The error for a path [fp] whose directory [rest] (below [seen])
    does not exist.  The system looks the directory up from the root,
    component by component: the first component that is missing makes it
    [FileNotFoundError], the first that is a regular file
    [NotADirectoryError]. *)
Fixpoint lookup_error (m : gmap path node) (seen rest : path) (fp : path) : os_error :=
  match rest with
  | [] => FileNotFoundError fp
  | name :: rest' =>
      match m !! (seen ++ [name]) with
      | Some (Dir _) => lookup_error m (seen ++ [name]) rest' fp
      | Some (File _ _) => NotADirectoryError fp
      | None => FileNotFoundError fp
      end
  end.

(** [os.mkdir(p)]: the new directory is writable by its creator. *)
Definition mkdir (p : path) : M unit := fun w =>
  match fs w !! p with
  | Some _ => (Raise (OSError (FileExistsError p)), w)
  | None =>
      match fs w !! dirname p with
      | None => (Raise (OSError (lookup_error (fs w) [] (dirname p) p)), w)
      | Some (File _ _) => (Raise (OSError (NotADirectoryError p)), w)
      | Some (Dir false) => (Raise (OSError (PermissionError p)), w)
      | Some (Dir true) =>
          (Ok tt, World (<[p := Dir true]> (fs w)) (stdout w) (stderr w))
      end
  end.

(** [try: m except FileExistsError: pass]. *)
Definition pass_FileExistsError (m : M unit) : M unit := fun w =>
  match m w with
  | (Raise (OSError (FileExistsError _)), w') => (Ok tt, w')
  | r => r
  end.

(** [try: mkdir(name) except OSError: if not exist_ok or not
    path.isdir(name): raise]. *)
Definition mkdir_unless_isdir (name : path) (exist_ok : bool) : M unit := fun w =>
  match mkdir name w with
  | (Raise (OSError e), w') =>
      match path_isdir name w' with
      | (Ok isdir, w'') =>
          if negb exist_ok || negb isdir then (Raise (OSError e), w'') else (Ok tt, w'')
      | (Raise e', w'') => (Raise e', w'')
      end
  | r => r
  end.

(** [os.makedirs(name, exist_ok=...)], on the reversed path so that
    the recursion on the parent is structural: a missing parent is
    created first, then the directory itself. *)
Fixpoint makedirs_rev (rname : list string) (exist_ok : bool) : M unit :=
  match rname with
  | [] => mkdir_unless_isdir [] exist_ok
  | tail :: rhead =>
      head_exists ← path_exists (reverse rhead);
      (if head_exists : bool then mret tt
       else pass_FileExistsError (makedirs_rev rhead exist_ok) : M unit);;
      mkdir_unless_isdir (reverse (tail :: rhead)) exist_ok
  end.

Definition makedirs (name : path) (exist_ok : bool) : M unit :=
  makedirs_rev (reverse name) exist_ok.

End os.

Module ImageFile.

(** Opening [fp] for writing and storing [data] in it: an existing
    file is replaced, a missing one is created in its directory. *)
Definition write_file (fp : path) (data : file_data) : M unit := fun w =>
  match fs w !! fp with
  | Some (Dir _) => (Raise (OSError (IsADirectoryError fp)), w)
  | Some (File false _) => (Raise (OSError (PermissionError fp)), w)
  | Some (File true _) =>
      (Ok tt, World (<[fp := File true data]> (fs w)) (stdout w) (stderr w))
  | None =>
      match fs w !! os.dirname fp with
      | None => (Raise (OSError (os.lookup_error (fs w) [] (os.dirname fp) fp)), w)
      | Some (File _ _) => (Raise (OSError (NotADirectoryError fp)), w)
      | Some (Dir false) => (Raise (OSError (PermissionError fp)), w)
      | Some (Dir true) =>
          (Ok tt, World (<[fp := File true data]> (fs w)) (stdout w) (stderr w))
      end
  end.

(** [img.save(fp, format)].  The file is opened for writing first,
    which empties it, and the image is encoded into it after that; the
    PNG encoder refuses an image without pixels, and the file it was
    given stays behind, empty. *)
Definition save (img : image) (fp : path) (format : string) : M unit :=
  if String.eqb format "PNG" then
    if (width img =? 0) || (height img =? 0) then
      write_file fp (Blob []);;
      lift (Raise (ValueError "cannot write empty image as PNG"))
    else write_file fp (PNG img)
  else lift (Raise (KeyError format)).

End ImageFile.

(** ** The script, part two: saving, and the entry routine *)

(** [create_icon(size, output_path)], lines 7 to 43. *)
Definition create_icon (size : Z) (output_path : path) : M unit :=
  img ← lift (draw_icon size);
  (* Save icon *)
  ImageFile.save img output_path "PNG";;
  print (Generated output_path size).

Definition output_dir : path :=
  ["home"; "ubuntu"; "live-shopping-network"; "client"; "public"]%string.

(** [main()], lines 45 to 54. *)
Definition main : M unit :=
  os.makedirs output_dir true;;
  (* Generate icons *)
  create_icon 192 (os.path_join output_dir "icon-192.png");;
  create_icon 512 (os.path_join output_dir "icon-512.png");;
  print AllGenerated.

(** Running the script: [main()] under the [__main__] guard.  An
    exception nobody caught is reported on the error stream and makes
    the exit status 1; a normal return makes it 0. *)
Definition run_script (w : world) : Z * world :=
  match main w with
  | (Ok _, w') => (0, w')
  | (Raise e, w') => (1, World (fs w') (stdout w') (stderr w' ++ [e]))
  end.

(** ** Derived notions used by the statements *)

(** The pixel of the icon of a given size, [None] outside it. *)
Definition icon_pixel (size x y : Z) : option rgba :=
  match draw_icon size with
  | Ok img => Image.getpixel img x y
  | Raise _ => None
  end.

Definition accent : rgba := RGBA 147 51 234 255.     (* #9333ea *)
Definition white : rgba := RGBA 255 255 255 255.
Definition transparent : rgba := RGBA 0 0 0 0.

(** The shapes [draw_icon] draws, by the names the source gives them. *)
Definition inset_circle (size k : Z) : shape :=
  Ellipse (Box k k (size - k) (size - k)).
Definition bag_body (size : Z) : shape :=
  Rectangle (Box (size / 3) (size / 3) (size * 2 / 3) (size * 2 / 3)).
Definition bag_handle (size : Z) : shape :=
  Arc (Box (size / 2 - size / 8) (size / 3 - size / 6 / 2)
           (size / 2 + size / 8) (size / 3 + size / 6 / 2))
      deg0 deg180 (size / 20).

(** The five drawing calls [draw_icon] makes, oldest first
    ([draw_icon_ok] below proves that these are the ones). *)
Definition icon_layers (size : Z) : list layer :=
  [ Layer (Ellipse (Box 0 0 size size)) accent;
    Layer (inset_circle size (size / 8)) white;
    Layer (inset_circle size (size / 6)) accent;
    Layer (bag_body size) white;
    Layer (bag_handle size) white ].

Definition icon_image (size : Z) : image :=
  MkImage "RGBA" size size transparent (icon_layers size).

(** Whether [write_file] would be let through at [p]. *)
Definition can_write (w : world) (p : path) : bool :=
  match fs w !! p with
  | Some (File true _) => true
  | Some _ => false
  | None => match fs w !! os.dirname p with Some (Dir true) => true | _ => false end
  end.

(** A well-formed file tree: whatever exists below the root lies in a
    directory. *)
Definition fs_wf (m : gmap path node) : Prop :=
  forall p n, m !! p = Some n -> p <> [] -> exists b, m !! os.dirname p = Some (Dir b).

(** What [os.makedirs] on the path [reverse rname] may do to a world:
    print nothing, keep every entry there is, and add nothing but
    writable directories at the path and its ancestors. *)
Definition only_adds_dirs (rname : list string) (w w' : world) : Prop :=
  stdout w' = stdout w /\ stderr w' = stderr w
  /\ (forall q n, fs w !! q = Some n -> fs w' !! q = Some n)
  /\ (forall q, fs w !! q = None ->
        fs w' !! q = None
        \/ (fs w' !! q = Some (Dir true) /\ exists k, reverse q = drop k rname)).

Definition icon_192 : path := os.path_join output_dir "icon-192.png".
Definition icon_512 : path := os.path_join output_dir "icon-512.png".

(** The bounding box a drawing call was given. *)
Definition shape_box (s : shape) : bbox :=
  match s with
  | Ellipse xy => xy
  | Rectangle xy => xy
  | Arc xy _ _ _ => xy
  end.

(** A disk with nothing but a writable root, and one whose root is
    read-only. *)
Definition empty_disk : world :=
  World {[ [] := Dir true ]} [] [].
Definition readonly_disk : world :=
  World {[ [] := Dir false ]} [] [].

(** Goals about floor division: name the quotients, then linear
    arithmetic. *)
Ltac div_lia := Z.to_euclidean_division_equations; lia.

(** * Properties *)

(** ** Colours and boxes *)

Lemma getrgb_accent : ImageColor.getrgb "#9333ea" = Ok accent.
Proof. reflexivity. Qed.

Lemma getrgb_white : ImageColor.getrgb "white" = Ok white.
Proof. reflexivity. Qed.

Lemma check_box_ok (b : bbox) :
  x0 b <= x1 b -> y0 b <= y1 b -> ImageDraw.check_box b = Ok tt.
Proof.
  intros Hx Hy. unfold ImageDraw.check_box.
  destruct (Z.ltb_spec (x1 b) (x0 b)); [lia|].
  destruct (Z.ltb_spec (y1 b) (y0 b)); [lia|]. reflexivity.
Qed.

(** Floor division facts the layout rests on. *)
Lemma layout_ordered (size : Z) :
  0 <= size ->
  size / 8 <= size - size / 8 /\ size / 6 <= size - size / 6
  /\ size / 3 <= size * 2 / 3
  /\ size / 2 - size / 8 <= size / 2 + size / 8
  /\ size / 3 - size / 6 / 2 <= size / 3 + size / 6 / 2.
Proof. intros H. repeat split; div_lia. Qed.

(** ** The drawing never raises *)

Lemma draw_icon_ok (size : Z) : 0 <= size -> draw_icon size = Ok (icon_image size).
Proof.
  intros Hsize. destruct (layout_ordered size Hsize) as (H8 & H6 & H3 & Hx & Hy).
  unfold draw_icon, Image.new. cbn [fst snd].
  destruct (Z.ltb_spec size 0) as [?|_]; [lia|]. cbn [orb mbind result_bind].
  unfold ImageDraw.ellipse, ImageDraw.rectangle, ImageDraw.arc.
  rewrite getrgb_accent, getrgb_white. cbn [mbind result_bind].
  rewrite !check_box_ok by (cbn; lia).
  reflexivity.
Qed.

Lemma draw_icon_negative (size : Z) :
  size < 0 -> draw_icon size = Raise (ValueError "Width and height must be >= 0").
Proof.
  intros Hsize. unfold draw_icon, Image.new. cbn [fst snd].
  destruct (Z.ltb_spec size 0) as [_|?]; [reflexivity|lia].
Qed.

(** ** Pixels *)

Lemma in_ellipse_true (a b X Y : Z) :
  Raster.in_ellipse a b X Y = true <->
  0 <= a /\ 0 <= b /\ - a <= X <= a /\ - b <= Y <= b
  /\ b * b * (X * X) + a * a * (Y * Y) <= a * a * b * b.
Proof.
  unfold Raster.in_ellipse. rewrite !andb_true_iff, !Z.leb_le. lia.
Qed.

Lemma in_box_true (b : bbox) (x y : Z) :
  Raster.in_box b x y = true <-> x0 b <= x <= x1 b /\ y0 b <= y <= y1 b.
Proof. unfold Raster.in_box. rewrite !andb_true_iff, !Z.leb_le. lia. Qed.

(** From 0 to 180 degrees Pillow sweeps through six o'clock: the lower
    half of the box. *)
Lemma in_sweep_0_180 (X Y : Z) :
  Raster.in_sweep deg0 deg180 X Y = true <-> 0 <= Y.
Proof.
  unfold Raster.in_sweep.
  change (seqZ 0 (Raster.swept_turns deg0 deg180)) with [0; 1].
  change (existsb _ _) with
    ((0 <=? X) && (0 <=? Y) || ((X <=? 0) && (0 <=? Y) || false)).
  rewrite orb_false_r, orb_true_iff, !andb_true_iff, !Z.leb_le. lia.
Qed.

Lemma paint_snoc (ls : list layer) (l : layer) (bg : rgba) (x y : Z) :
  Raster.paint (ls ++ [l]) bg x y =
  if Raster.covers (layer_shape l) x y then layer_ink l else Raster.paint ls bg x y.
Proof. unfold Raster.paint. rewrite fold_left_app. reflexivity. Qed.

Lemma icon_pixel_inside (size x y : Z) :
  0 <= x < size -> 0 <= y < size ->
  icon_pixel size x y = Some (Raster.paint (icon_layers size) transparent x y).
Proof.
  intros Hx Hy. unfold icon_pixel. rewrite draw_icon_ok by lia.
  unfold Image.getpixel. cbn [width height layers background icon_image].
  destruct (Z.leb_spec 0 x); [|lia]. destruct (Z.ltb_spec x size); [|lia].
  destruct (Z.leb_spec 0 y); [|lia]. destruct (Z.ltb_spec y size); [|lia].
  reflexivity.
Qed.

(** A circle drawn [k] pixels inside the square of side [size]: the
    pixels within the radius of the centre of the square. *)
Lemma covers_inset_circle (size k x y : Z) :
  2 * k < size ->
  Raster.covers (inset_circle size k) x y = true <->
  (2 * x - size) * (2 * x - size) + (2 * y - size) * (2 * y - size)
  <= (size - 2 * k) * (size - 2 * k).
Proof.
  intros Hk. unfold inset_circle. cbn [Raster.covers x0 x1 y0 y1]. rewrite in_ellipse_true.
  replace (size - k - k) with (size - 2 * k) by lia.
  replace (2 * x - k - (size - k)) with (2 * x - size) by lia.
  replace (2 * y - k - (size - k)) with (2 * y - size) by lia.
  set (a := size - 2 * k). set (X := 2 * x - size). set (Y := 2 * y - size).
  assert (Ha : 0 < a) by (unfold a; lia).
  assert (Hsq : 0 < a * a) by nia.
  split.
  - intros (_ & _ & _ & _ & H).
    apply (Z.mul_le_mono_pos_l _ _ (a * a)); [assumption|]. lia.
  - intros H. repeat split; try lia; try nia.
Qed.

Lemma covers_outer_circle (size x y : Z) :
  0 < size ->
  Raster.covers (Ellipse (Box 0 0 size size)) x y = true <->
  (2 * x - size) * (2 * x - size) + (2 * y - size) * (2 * y - size) <= size * size.
Proof.
  intros Hsize. rewrite <- (Z.sub_0_r size) at 1 2.
  change (Ellipse _) with (inset_circle size 0).
  rewrite covers_inset_circle by lia. rewrite Z.mul_0_r, Z.sub_0_r. reflexivity.
Qed.

Lemma covers_bag_body (size x y : Z) :
  Raster.covers (bag_body size) x y = true <->
  size / 3 <= x <= size * 2 / 3 /\ size / 3 <= y <= size * 2 / 3.
Proof. unfold bag_body. cbn [Raster.covers]. rewrite in_box_true. reflexivity. Qed.

(** What the handle paints is in the lower half of its box. *)
Lemma covers_bag_handle (size x y : Z) :
  Raster.covers (bag_handle size) x y = true ->
  size / 2 - size / 8 <= x <= size / 2 + size / 8
  /\ size / 3 <= y <= size / 3 + size / 6 / 2.
Proof.
  unfold bag_handle. cbn [Raster.covers x0 x1 y0 y1].
  rewrite !andb_true_iff, in_ellipse_true, in_sweep_0_180.
  intros [[(_ & _ & HX & HY & _) _] Hlow]. lia.
Qed.

(** The colour of a pixel of the icon, layer by layer from the top. *)
Lemma paint_icon_layers (size x y : Z) (bg : rgba) :
  Raster.paint (icon_layers size) bg x y =
  if Raster.covers (bag_handle size) x y then white
  else if Raster.covers (bag_body size) x y then white
  else if Raster.covers (inset_circle size (size / 6)) x y then accent
  else if Raster.covers (inset_circle size (size / 8)) x y then white
  else if Raster.covers (Ellipse (Box 0 0 size size)) x y then accent
  else bg.
Proof.
  unfold Raster.paint, icon_layers. cbn [fold_left layer_shape layer_ink].
  repeat match goal with |- context [if ?c then _ else _] => destruct c end;
    reflexivity.
Qed.

(** ** The concentric circles *)




(** ** The bag body *)

(** C7: for every positive size the fourth drawing call fills, in white,
    the rectangle whose horizontal and vertical extents are both
    [size/3, 2*size/3] in floor division, end points included; the
    rectangle lies inside the canvas and every pixel of it is white in
    the finished icon. *)
Theorem bag_body_extent (size : Z) :
  0 < size ->
  (exists img, draw_icon size = Ok img
     /\ layers img !! 3%nat =
          Some (Layer (Rectangle (Box (size / 3) (size / 3) (size * 2 / 3) (size * 2 / 3)))
                      white))
  /\ ImageColor.getrgb "white" = Ok white
  /\ 0 <= size / 3 /\ size * 2 / 3 < size
  /\ (forall x y, Raster.covers (bag_body size) x y = true <->
        size / 3 <= x <= size * 2 / 3 /\ size / 3 <= y <= size * 2 / 3)
  /\ (forall x y, size / 3 <= x <= size * 2 / 3 -> size / 3 <= y <= size * 2 / 3 ->
        icon_pixel size x y = Some white).
Proof.
  intros Hsize.
  split; [|split; [reflexivity|split; [div_lia|split; [div_lia|split]]]].
  - exists (icon_image size). split; [apply draw_icon_ok; lia|reflexivity].
  - intros x y. apply covers_bag_body.
  - intros x y Hx Hy.
    assert (Hin : size * 2 / 3 < size /\ 0 <= size / 3) by div_lia.
    rewrite icon_pixel_inside by lia. f_equal.
    rewrite paint_icon_layers.
    destruct (Raster.covers (bag_handle size) x y); [reflexivity|].
    destruct (Raster.covers (bag_body size) x y) eqn:Hb; [reflexivity|].
    apply not_true_iff_false in Hb. exfalso. apply Hb.
    apply covers_bag_body. lia.
Qed.

Lemma bag_body_extent_witness :
  0 < 192 /\ icon_pixel 192 64 128 = Some white.
Proof.
  split; [lia|].
  apply (bag_body_extent 192); [lia| |]; vm_compute; split; discriminate.
Defined.

(** ** The bag handle *)

(** Where the handle is drawn, the bag body was drawn before. *)
Lemma bag_handle_in_bag_body (size x y : Z) :
  Raster.covers (bag_handle size) x y = true ->
  size / 3 <= y /\ Raster.covers (bag_body size) x y = true.
Proof.
  intros H. apply covers_bag_handle in H. rewrite covers_bag_body.
  revert H. div_lia.
Qed.

(** C4: the handle is the fifth drawing call, a white arc from 0 to 180
    degrees, stroked size/20 wide, in a box that reaches size/8 to either
    side of size/2 and is centred vertically on the bag's top edge
    y = size/3.  Pillow sweeps clockwise from three o'clock, so what is
    painted is the lower half of that box: every pixel of the handle is
    on or below the line y = size/3 and inside the bag body, never above
    it, and the finished icon is pixel for pixel the icon without the
    handle.  At size 192 the lowest point (96, 80) of the arc's ellipse
    is painted by the handle, and its highest point (96, 48), above the
    bag, keeps the accent colour. *)
Theorem handle_drawn_below_bag_top :
  (forall size, 0 < size ->
     exists img, draw_icon size = Ok img
       /\ layers img !! 4%nat =
            Some (Layer (Arc (Box (size / 2 - size / 8) (size / 3 - size / 6 / 2)
                                  (size / 2 + size / 8) (size / 3 + size / 6 / 2))
                             deg0 deg180 (size / 20)) white))
  /\ (forall size x y, Raster.covers (bag_handle size) x y = true ->
        size / 3 <= y /\ Raster.covers (bag_body size) x y = true)
  /\ (forall size x y,
        Raster.paint (icon_layers size) transparent x y =
        Raster.paint (take 4 (icon_layers size)) transparent x y)
  /\ Raster.covers (bag_handle 192) 96 80 = true
  /\ icon_pixel 192 96 48 = Some accent.
Proof.
  split; [|split; [|split; [|split]]].
  - intros size Hsize. exists (icon_image size).
    split; [apply draw_icon_ok; lia|reflexivity].
  - apply bag_handle_in_bag_body.
  - intros size x y. change (icon_layers size) with
      (take 4 (icon_layers size) ++ [Layer (bag_handle size) white]) at 1.
    rewrite paint_snoc. cbn [layer_shape layer_ink].
    destruct (Raster.covers (bag_handle size) x y) eqn:Hh; [|reflexivity].
    apply bag_handle_in_bag_body in Hh as [_ Hb].
    change (take 4 (icon_layers size)) with
      (take 3 (icon_layers size) ++ [Layer (bag_body size) white]).
    rewrite paint_snoc. cbn [layer_shape layer_ink]. rewrite Hb. reflexivity.
  - vm_compute. reflexivity.
  - vm_compute. reflexivity.
Qed.

Lemma handle_drawn_below_bag_top_witness :
  Raster.covers (bag_handle 192) 96 80 = true
  /\ 192 / 3 <= 80 /\ Raster.covers (bag_body 192) 96 80 = true.
Proof.
  split; [vm_compute; reflexivity|].
  apply (proj1 (proj2 handle_drawn_below_bag_top) 192 96 80).
  vm_compute. reflexivity.
Defined.

(** ** The corners *)

(** No circle of the icon reaches a corner pixel of the canvas: not the
    pixel (0, 0) at any size above 2, and none of the four from size 9
    on.  (These are pixels on which the ideal ellipse and Pillow's scan
    conversion agree; at sizes 7 and 8 Pillow paints the corner
    (size-1, size-1), which the ideal ellipse would leave out.) *)
Lemma corner_outside_circles (size k x y : Z) :
  0 <= 2 * k < size ->
  x = 0 \/ x = size - 1 -> y = 0 \/ y = size - 1 ->
  (x = 0 /\ y = 0 /\ 2 < size) \/ 9 <= size ->
  Raster.covers (inset_circle size k) x y = false.
Proof.
  intros Hk Hx Hy Hsize. apply not_true_iff_false. intros H.
  apply covers_inset_circle in H; [|lia].
  destruct Hx as [-> | ->], Hy as [-> | ->]; nia.
Qed.

Lemma corner_transparent (size x y : Z) :
  x = 0 \/ x = size - 1 -> y = 0 \/ y = size - 1 ->
  (x = 0 /\ y = 0 /\ 2 < size) \/ 9 <= size ->
  icon_pixel size x y = Some transparent.
Proof.
  intros Hx Hy Hsize.
  rewrite icon_pixel_inside by lia. f_equal. rewrite paint_icon_layers.
  assert (Hb : Raster.covers (bag_body size) x y = false).
  { apply not_true_iff_false. rewrite covers_bag_body.
    destruct Hx as [-> | ->], Hy as [-> | ->]; div_lia. }
  destruct (Raster.covers (bag_handle size) x y) eqn:Hh.
  { apply bag_handle_in_bag_body in Hh. destruct Hh as [_ Hh]. congruence. }
  rewrite Hb.
  rewrite !corner_outside_circles by (try assumption; div_lia).
  replace (Raster.covers (Ellipse (Box 0 0 size size)) x y) with false; [reflexivity|].
  symmetry. apply not_true_iff_false. intros H.
  apply covers_outer_circle in H; [|lia].
  destruct Hx as [-> | ->], Hy as [-> | ->]; nia.
Qed.

(** C10, as the code has it: for every size above 2 the pixel (0, 0)
    stays fully transparent, so the icon is never fully opaque; from
    size 9 on (192 and 512 among them) all four corner pixels stay
    fully transparent. *)
Theorem corner_pixels_transparent (size : Z) :
  2 < size ->
  icon_pixel size 0 0 = Some transparent
  /\ alpha transparent = 0
  /\ (9 <= size ->
        icon_pixel size (size - 1) 0 = Some transparent
        /\ icon_pixel size 0 (size - 1) = Some transparent
        /\ icon_pixel size (size - 1) (size - 1) = Some transparent).
Proof.
  intros Hsize. split; [|split; [reflexivity|]].
  - apply corner_transparent; auto.
  - intros H9. repeat split; apply corner_transparent; auto.
Qed.

Lemma corner_pixels_transparent_witness :
  2 < 192 /\ icon_pixel 192 0 0 = Some transparent.
Proof.
  split; [lia|]. refine (proj1 (corner_pixels_transparent 192 _)). lia.
Defined.

(** C10, as the claim states it, fails at size 3: the bag body is the
    rectangle from (1, 1) to (2, 2), which paints the bottom right
    corner pixel white and opaque. *)
Lemma corner_pixel_opaque_at_size_3 :
  2 < 3 /\ icon_pixel 3 2 2 = Some white /\ alpha white = 255
  /\ Raster.covers (bag_body 3) 2 2 = true.
Proof. repeat split. Qed.

(** ** Saving *)

Lemma write_file_ok (w : world) (p : path) (d : file_data) :
  can_write w p = true ->
  ImageFile.write_file p d w =
  (Ok tt, World (<[p := File true d]> (fs w)) (stdout w) (stderr w)).
Proof.
  unfold can_write, ImageFile.write_file. intros H.
  destruct (fs w !! p) as [[b|[] data]|]; try discriminate; [reflexivity|].
  destruct (fs w !! os.dirname p) as [[[]|b data]|]; try discriminate. reflexivity.
Qed.

Lemma write_file_raises (w : world) (p : path) (d : file_data) :
  can_write w p = false ->
  exists e, ImageFile.write_file p d w = (Raise (OSError e), w).
Proof.
  unfold can_write, ImageFile.write_file. intros H.
  destruct (fs w !! p) as [[b|[] data]|]; try discriminate; eauto.
  destruct (fs w !! os.dirname p) as [[[]|b data]|]; try discriminate; eauto.
Qed.

Lemma save_nonempty (img : image) (p : path) :
  0 < width img -> 0 < height img ->
  ImageFile.save img p "PNG" = ImageFile.write_file p (PNG img).
Proof.
  intros Hw Hh. unfold ImageFile.save.
  change (("PNG" =? "PNG")%string) with true. cbv iota.
  destruct (Z.eqb_spec (width img) 0); [lia|].
  destruct (Z.eqb_spec (height img) 0); [lia|]. reflexivity.
Qed.

(** [create_icon] step by step: draw, save, print. *)
Lemma create_icon_unfold (size : Z) (p : path) (w : world) :
  create_icon size p w =
  match draw_icon size with
  | Ok img =>
      match ImageFile.save img p "PNG" w with
      | (Ok _, w') => (Ok tt, World (fs w') (stdout w' ++ [Generated p size]) (stderr w'))
      | (Raise e, w') => (Raise e, w')
      end
  | Raise e => (Raise e, w)
  end.
Proof.
  unfold create_icon, lift, mbind, M_bind, print.
  destruct (draw_icon size) as [img|e]; [|reflexivity].
  destruct (ImageFile.save img p "PNG" w) as [[[]|e] w']; reflexivity.
Qed.

(** For a positive size the save is the write of the image. *)
Lemma create_icon_positive (size : Z) (p : path) (w : world) :
  0 < size ->
  create_icon size p w =
  match ImageFile.write_file p (PNG (icon_image size)) w with
  | (Ok _, w') => (Ok tt, World (fs w') (stdout w' ++ [Generated p size]) (stderr w'))
  | (Raise e, w') => (Raise e, w')
  end.
Proof.
  intros Hsize. rewrite create_icon_unfold, draw_icon_ok by lia.
  rewrite save_nonempty by (cbn; lia). reflexivity.
Qed.

Lemma create_icon_ok (size : Z) (p : path) (w : world) :
  0 < size -> can_write w p = true ->
  create_icon size p w =
  (Ok tt, World (<[p := File true (PNG (icon_image size))]> (fs w))
                (stdout w ++ [Generated p size]) (stderr w)).
Proof.
  intros Hsize Hw. rewrite create_icon_positive by assumption.
  rewrite (write_file_ok w p _ Hw). reflexivity.
Qed.

Lemma create_icon_raises (size : Z) (p : path) (w : world) :
  0 < size -> can_write w p = false ->
  exists e, create_icon size p w = (Raise (OSError e), w)
            /\ ImageFile.write_file p (PNG (icon_image size)) w = (Raise (OSError e), w).
Proof.
  intros Hsize Hw. rewrite create_icon_positive by assumption.
  destruct (write_file_raises w p (PNG (icon_image size)) Hw) as [e He].
  exists e. rewrite He. split; reflexivity.
Qed.

Lemma create_icon_negative (size : Z) (p : path) (w : world) :
  size < 0 ->
  create_icon size p w = (Raise (ValueError "Width and height must be >= 0"), w).
Proof.
  intros Hsize. rewrite create_icon_unfold, (draw_icon_negative size Hsize).
  reflexivity.
Qed.

(** At size 0 there is nothing to encode: the call raises, after the
    file was opened and emptied if it could be. *)
Lemma create_icon_empty (p : path) (w : world) :
  (can_write w p = true /\
   create_icon 0 p w =
   (Raise (ValueError "cannot write empty image as PNG"),
    World (<[p := File true (Blob [])]> (fs w)) (stdout w) (stderr w)))
  \/ (exists e, create_icon 0 p w = (Raise e, w)).
Proof.
  rewrite create_icon_unfold, draw_icon_ok by lia.
  unfold ImageFile.save. change (("PNG" =? "PNG")%string) with true. cbv iota.
  change ((width (icon_image 0) =? 0) || (height (icon_image 0) =? 0)) with true.
  cbv iota. unfold mbind, M_bind, lift.
  destruct (can_write w p) eqn:Hw.
  - left. rewrite (write_file_ok w p _ Hw). auto.
  - right. destruct (write_file_raises w p (Blob []) Hw) as [e He].
    rewrite He. eauto.
Qed.

(** A call of [create_icon] returns after its one write and its one
    print, or raises and leaves the world as it was, or, at size 0,
    raises and leaves an empty file. *)
Lemma create_icon_cases (size : Z) (p : path) (w : world) :
  (create_icon size p w =
     (Ok tt, World (<[p := File true (PNG (icon_image size))]> (fs w))
                   (stdout w ++ [Generated p size]) (stderr w))
   /\ 0 < size /\ can_write w p = true)
  \/ (exists e, create_icon size p w = (Raise e, w))
  \/ (size = 0 /\ can_write w p = true
      /\ exists e, create_icon size p w =
           (Raise e, World (<[p := File true (Blob [])]> (fs w)) (stdout w) (stderr w))).
Proof.
  destruct (Z.lt_trichotomy size 0) as [Hneg|[->|Hsize]].
  - right; left. eexists. apply create_icon_negative. assumption.
  - destruct (create_icon_empty p w) as [[Hw H]|H]; [|auto].
    right; right. eauto.
  - destruct (can_write w p) eqn:Hw.
    + left. split; [apply create_icon_ok; assumption|auto].
    + right; left. destruct (create_icon_raises size p w Hsize Hw) as (e & He & _). eauto.
Qed.

(** A call that returned had a positive size and a writable path, and
    did exactly one write and one print. *)
Lemma create_icon_returned (size : Z) (p : path) (w w' : world) :
  create_icon size p w = (Ok tt, w') ->
  0 < size /\ can_write w p = true
  /\ w' = World (<[p := File true (PNG (icon_image size))]> (fs w))
                (stdout w ++ [Generated p size]) (stderr w).
Proof.
  intros H.
  destruct (create_icon_cases size p w) as [(H1 & Hs & Hw)|[[e H1]|(_ & _ & e & H1)]];
    rewrite H1 in H; [|discriminate|discriminate].
  split; [assumption|]. split; congruence.
Qed.

Lemma length_bind_const {A B : Type} (f : A -> list B) (l : list A) (n : nat) :
  (forall a, length (f a) = n) -> length (l ≫= f) = (length l * n)%nat.
Proof.
  intros Hf. induction l as [|a l IH]; [reflexivity|].
  cbn. rewrite length_app, Hf, IH. reflexivity.
Qed.

Lemma length_tobytes (img : image) :
  0 <= width img -> 0 <= height img ->
  Z.of_nat (length (Image.tobytes img)) = width img * height img.
Proof.
  intros Hw Hh. unfold Image.tobytes.
  rewrite (length_bind_const _ _ (Z.to_nat (width img))).
  - rewrite length_seqZ. lia.
  - intros y. rewrite (length_bind_const _ _ 1%nat) by reflexivity.
    rewrite length_seqZ. lia.
Qed.

(** C1: for every positive size and every path, a call of [create_icon]
    that returns has left at that path a PNG file in RGBA mode whose
    image is size pixels wide and size pixels high (size * size pixels
    in all). *)
Theorem create_icon_writes_square_png (size : Z) (p : path) (w w' : world) :
  0 < size ->
  create_icon size p w = (Ok tt, w') ->
  exists img, fs w' !! p = Some (File true (PNG img))
    /\ mode img = "RGBA"%string /\ width img = size /\ height img = size
    /\ Z.of_nat (length (Image.tobytes img)) = size * size.
Proof.
  intros Hsize H. apply create_icon_returned in H as (_ & _ & ->).
  exists (icon_image size). cbn [fs]. rewrite lookup_insert_eq.
  repeat split. apply length_tobytes; cbn; lia.
Qed.

Lemma create_icon_writes_square_png_witness :
  0 < 192 /\
  exists img, fs (create_icon 192 icon_192 (World {[ output_dir := Dir true ]} [] [])).2
                !! icon_192 = Some (File true (PNG img))
    /\ mode img = "RGBA"%string /\ width img = 192 /\ height img = 192
    /\ Z.of_nat (length (Image.tobytes img)) = 192 * 192.
Proof.
  split; [lia|].
  set (w := World {[ output_dir := Dir true ]} [] []).
  assert (Hsize : 0 < 192) by lia.
  apply (create_icon_writes_square_png 192 icon_192 w _ Hsize).
  vm_compute. reflexivity.
Defined.

(** ** The smallest icon *)

(** C5: [create_icon(1, path)] does not crash.  At size 1 the insets
    size/8 and size/6 and the stroke size/20 are all 0, every box is
    still well ordered and every drawing call returns; the call can only
    raise what the write raises, and on a writable path it returns and
    leaves a PNG of one pixel by one pixel. *)
Theorem create_icon_size_1 (p : path) (w : world) :
  (1 / 8 = 0 /\ 1 / 6 = 0 /\ 1 / 20 = 0)
  /\ draw_icon 1 = Ok (icon_image 1)
  /\ (forall e w', create_icon 1 p w = (Raise e, w') ->
        w' = w /\ exists oe, e = OSError oe
          /\ ImageFile.write_file p (PNG (icon_image 1)) w = (Raise e, w))
  /\ (can_write w p = true ->
        exists w', create_icon 1 p w = (Ok tt, w')
          /\ fs w' !! p = Some (File true (PNG (icon_image 1))))
  /\ width (icon_image 1) = 1 /\ height (icon_image 1) = 1
  /\ Image.tobytes (icon_image 1) = [white].
Proof.
  split; [repeat split|]. split; [apply draw_icon_ok; lia|].
  split; [|split; [|repeat split]].
  - intros e w' H. destruct (can_write w p) eqn:Hw.
    + rewrite create_icon_ok in H by (assumption || lia). discriminate.
    + destruct (create_icon_raises 1 p w ltac:(lia) Hw) as (oe & He & Hwr).
      rewrite He in H. injection H as <- <-. eauto.
  - intros Hw. eexists. split; [apply create_icon_ok; [lia|assumption]|].
    cbn [fs]. apply lookup_insert_eq.
Qed.

Lemma create_icon_size_1_witness :
  exists w', create_icon 1 ["icon.png"%string] empty_disk = (Ok tt, w')
    /\ fs w' !! ["icon.png"%string] = Some (File true (PNG (icon_image 1))).
Proof.
  apply (proj1 (proj2 (proj2 (proj2 (create_icon_size_1 ["icon.png"%string] empty_disk))))).
  vm_compute. reflexivity.
Defined.

(** ** Directories *)

Lemma dirname_snoc (p : path) (name : string) : os.dirname (p ++ [name]) = p.
Proof.
  unfold os.dirname. rewrite reverse_snoc. cbn [tail]. apply reverse_involutive.
Qed.

Lemma mkdir_cases (p : path) (w : world) :
  (exists e, os.mkdir p w = (Raise (OSError e), w))
  \/ (os.mkdir p w = (Ok tt, World (<[p := Dir true]> (fs w)) (stdout w) (stderr w))
      /\ fs w !! p = None /\ fs w !! os.dirname p = Some (Dir true)).
Proof.
  unfold os.mkdir. destruct (fs w !! p) as [n|]; [eauto|].
  destruct (fs w !! os.dirname p) as [[[]|b d]|]; eauto.
Qed.

Lemma mkdir_unless_isdir_cases (p : path) (w : world) :
  (exists e, os.mkdir_unless_isdir p true w = (Raise (OSError e), w))
  \/ (os.mkdir_unless_isdir p true w = (Ok tt, w) /\ exists b, fs w !! p = Some (Dir b))
  \/ (os.mkdir_unless_isdir p true w
        = (Ok tt, World (<[p := Dir true]> (fs w)) (stdout w) (stderr w))
      /\ fs w !! p = None /\ fs w !! os.dirname p = Some (Dir true)).
Proof.
  unfold os.mkdir_unless_isdir.
  destruct (mkdir_cases p w) as [[e He]|(He & Hp & Hd)]; rewrite He.
  - unfold os.path_isdir. cbn [negb orb].
    destruct (fs w !! p) as [[b|b d]|]; cbn [negb]; eauto.
  - right; right. auto.
Qed.

Lemma only_adds_dirs_refl (rname : list string) (w : world) :
  only_adds_dirs rname w w.
Proof. unfold only_adds_dirs. auto. Qed.

Lemma only_adds_dirs_mkdir (rname : list string) (w : world) :
  fs w !! reverse rname = None ->
  only_adds_dirs rname w
    (World (<[reverse rname := Dir true]> (fs w)) (stdout w) (stderr w)).
Proof.
  intros Hnone. unfold only_adds_dirs. cbn [fs stdout stderr].
  split; [reflexivity|]. split; [reflexivity|]. split.
  - intros q n Hq. rewrite lookup_insert_ne; [assumption|congruence].
  - intros q Hq. destruct (decide (reverse rname = q)) as [<-|Hne].
    + right. rewrite lookup_insert_eq. split; [reflexivity|].
      exists 0%nat. rewrite reverse_involutive. reflexivity.
    + left. rewrite lookup_insert_ne; assumption.
Qed.

Lemma only_adds_dirs_trans (name : string) (rhead : list string) (w w1 w2 : world) :
  only_adds_dirs rhead w w1 ->
  only_adds_dirs (name :: rhead) w1 w2 ->
  only_adds_dirs (name :: rhead) w w2.
Proof.
  intros (Ho1 & He1 & Hk1 & Hn1) (Ho2 & He2 & Hk2 & Hn2).
  split; [congruence|]. split; [congruence|]. split; [auto|].
  intros q Hq. destruct (Hn1 q Hq) as [Hq1|[Hq1 [k Hk]]].
  - apply Hn2. assumption.
  - right. split; [apply Hk2; assumption|].
    exists (S k). assumption.
Qed.

(** [os.makedirs(name, exist_ok=True)]: it raises nothing but [OSError],
    it only adds directories on the way to [name], and when it returns
    [name] is a directory. *)
Lemma makedirs_rev_spec (rname : list string) (w : world) :
  exists r w', os.makedirs_rev rname true w = (r, w')
    /\ only_adds_dirs rname w w'
    /\ (r = Ok tt \/ exists e, r = Raise (OSError e))
    /\ (r = Ok tt -> exists b, fs w' !! reverse rname = Some (Dir b)).
Proof.
  revert w. induction rname as [|name rhead IH]; intros w.
  - cbn [os.makedirs_rev].
    destruct (mkdir_unless_isdir_cases [] w) as [[e He]|[[He [b Hb]]|(He & Hp & Hd)]];
      rewrite He; do 2 eexists; (split; [reflexivity|]).
    + split; [apply only_adds_dirs_refl|]. split; [eauto|discriminate].
    + split; [apply only_adds_dirs_refl|]. split; [eauto|]. intros _. eauto.
    + split; [apply (only_adds_dirs_mkdir [] w Hp)|]. split; [eauto|]. intros _.
      cbn [fs]. rewrite lookup_insert_eq. eauto.
  - cbn [os.makedirs_rev]. unfold mbind at 1 2, M_bind, os.path_exists.
    assert (Hstep : forall w1, only_adds_dirs rhead w w1 ->
      exists r w', os.mkdir_unless_isdir (reverse (name :: rhead)) true w1 = (r, w')
        /\ only_adds_dirs (name :: rhead) w w'
        /\ (r = Ok tt \/ exists e, r = Raise (OSError e))
        /\ (r = Ok tt -> exists b, fs w' !! reverse (name :: rhead) = Some (Dir b))).
    { intros w1 H1.
      destruct (mkdir_unless_isdir_cases (reverse (name :: rhead)) w1)
        as [[e He]|[[He [b Hb]]|(He & Hp & Hd)]];
        rewrite He; do 2 eexists; (split; [reflexivity|]).
      - split; [|split; [eauto|discriminate]].
        apply (only_adds_dirs_trans _ _ _ w1); [assumption|apply only_adds_dirs_refl].
      - split; [|split; [eauto|eauto]].
        apply (only_adds_dirs_trans _ _ _ w1); [assumption|apply only_adds_dirs_refl].
      - split; [|split; [eauto|]].
        + apply (only_adds_dirs_trans _ _ _ w1); [assumption|].
          apply only_adds_dirs_mkdir. assumption.
        + intros _. cbn [fs]. rewrite lookup_insert_eq. eauto. }
    destruct (fs w !! reverse rhead) as [n|] eqn:Hhead.
    + cbn [mret M_ret].
      destruct (Hstep w (only_adds_dirs_refl _ _)) as (r & w' & -> & H). eauto.
    + unfold os.pass_FileExistsError.
      destruct (IH w) as (r1 & w1 & -> & H1 & Hr1 & _).
      destruct Hr1 as [->|[e ->]].
      * destruct (Hstep w1 H1) as (r & w' & -> & H). eauto.
      * destruct e as [q|q|q|q|q];
          try (do 2 eexists; split; [reflexivity|];
               split; [|split; [eauto|discriminate]];
               apply (only_adds_dirs_trans _ _ _ w1);
               [assumption|apply only_adds_dirs_refl]).
        destruct (Hstep w1 H1) as (r & w' & -> & H). eauto.
Qed.

(** ** Well-formed file trees *)

(** Putting a node where there was no directory, in a directory, keeps
    the tree well formed. *)
Lemma fs_wf_insert (m : gmap path node) (p : path) (n : node) :
  fs_wf m ->
  (forall b, m !! p <> Some (Dir b)) ->
  (p <> [] -> exists b, m !! os.dirname p = Some (Dir b)) ->
  fs_wf (<[p := n]> m).
Proof.
  intros Hwf Hnodir Hparent q nq Hq Hne.
  assert (Hup : exists b, m !! os.dirname q = Some (Dir b)).
  { destruct (decide (p = q)) as [<-|Hpq]; [auto|].
    rewrite lookup_insert_ne in Hq by assumption. eauto. }
  destruct Hup as [b Hb]. exists b.
  rewrite lookup_insert_ne; [assumption|].
  intros ->. exact (Hnodir b Hb).
Qed.

Lemma mkdir_unless_isdir_wf (p : path) (w : world) :
  fs_wf (fs w) -> fs_wf (fs (os.mkdir_unless_isdir p true w).2).
Proof.
  intros Hwf.
  destruct (mkdir_unless_isdir_cases p w) as [[e He]|[[He _]|(He & Hp & Hd)]];
    rewrite He; cbn [snd fs]; try assumption.
  apply fs_wf_insert; [assumption|congruence|eauto].
Qed.

Lemma makedirs_rev_wf (rname : list string) (w : world) :
  fs_wf (fs w) -> fs_wf (fs (os.makedirs_rev rname true w).2).
Proof.
  revert w. induction rname as [|name rhead IH]; intros w Hwf.
  - apply mkdir_unless_isdir_wf. assumption.
  - cbn [os.makedirs_rev]. unfold mbind at 1 2, M_bind, os.path_exists.
    destruct (fs w !! reverse rhead) as [n|].
    + cbn [mret M_ret]. apply mkdir_unless_isdir_wf. assumption.
    + unfold os.pass_FileExistsError. specialize (IH w Hwf).
      destruct (os.makedirs_rev rhead true w) as [[[]|e] w1]; cbn [snd] in IH.
      * apply mkdir_unless_isdir_wf. assumption.
      * destruct e as [msg|key|[q|q|q|q|q]]; cbn [snd]; try assumption.
        apply mkdir_unless_isdir_wf. assumption.
Qed.

(** In a well-formed tree, whatever exists has directories all the way
    up to the root. *)
Lemma fs_wf_ancestors (m : gmap path node) (p : path) :
  fs_wf m -> is_Some (m !! p) ->
  forall k, (k < length p)%nat -> exists b, m !! take k p = Some (Dir b).
Proof.
  intros Hwf. induction p as [|name p IH] using rev_ind; intros Hp k Hk.
  - cbn in Hk. lia.
  - destruct Hp as [n Hn].
    destruct (Hwf _ _ Hn) as [b Hb]; [intros H; destruct p; discriminate|].
    rewrite dirname_snoc in Hb.
    rewrite length_app in Hk. cbn in Hk.
    destruct (decide (k = length p)) as [->|Hne].
    + rewrite take_app_length. eauto.
    + rewrite take_app_le by lia. apply IH; [eauto|lia].
Qed.

Lemma fs_wf_child_of_missing (m : gmap path node) (p : path) (name : string) :
  fs_wf m -> m !! p = None -> m !! (p ++ [name]) = None.
Proof.
  intros Hwf Hp. destruct (m !! (p ++ [name])) as [n|] eqn:Hn; [|reflexivity].
  destruct (Hwf _ _ Hn) as [b Hb]; [intros H; destruct p; discriminate|].
  rewrite dirname_snoc in Hb. congruence.
Qed.

(** ** The entry routine *)

(** [main] step by step. *)
Lemma main_unfold (w : world) :
  main w =
  match os.makedirs output_dir true w with
  | (Ok _, w1) =>
      match create_icon 192 icon_192 w1 with
      | (Ok _, w2) =>
          match create_icon 512 icon_512 w2 with
          | (Ok _, w3) =>
              (Ok tt, World (fs w3) (stdout w3 ++ [AllGenerated]) (stderr w3))
          | (Raise e, w3) => (Raise e, w3)
          end
      | (Raise e, w2) => (Raise e, w2)
      end
  | (Raise e, w1) => (Raise e, w1)
  end.
Proof.
  unfold main, mbind, M_bind, print, icon_192, icon_512.
  destruct (os.makedirs output_dir true w) as [[[]|e] w1]; [|reflexivity].
  destruct (create_icon 192 _ w1) as [[[]|e] w2]; [|reflexivity].
  destruct (create_icon 512 _ w2) as [[[]|e] w3]; reflexivity.
Qed.

Lemma makedirs_spec (name : path) (w : world) :
  exists r w', os.makedirs name true w = (r, w')
    /\ only_adds_dirs (reverse name) w w'
    /\ (r = Ok tt \/ exists e, r = Raise (OSError e))
    /\ (r = Ok tt -> exists b, fs w' !! name = Some (Dir b))
    /\ (fs_wf (fs w) -> fs_wf (fs w')).
Proof.
  unfold os.makedirs.
  destruct (makedirs_rev_spec (reverse name) w) as (r & w' & Hrun & Hadds & Hr & Hdir).
  exists r, w'. rewrite reverse_involutive in Hdir.
  repeat (split; [assumption|]).
  intros Hwf. apply (makedirs_rev_wf (reverse name)) in Hwf.
  rewrite Hrun in Hwf. exact Hwf.
Qed.

(** A path below [name] is not on the way to [name]. *)
Lemma child_not_ancestor (name : path) (child : string) (k : nat) :
  reverse (name ++ [child]) <> drop k (reverse name).
Proof.
  intros H. apply (f_equal length) in H.
  rewrite length_drop, !length_reverse, length_app in H. cbn in H. lia.
Qed.


(** What a run of [main] that returned has done. *)
Lemma main_returned (w w' : world) :
  main w = (Ok tt, w') ->
  exists w1, os.makedirs output_dir true w = (Ok tt, w1)
    /\ can_write w1 icon_192 = true
    /\ fs w' = <[icon_512 := File true (PNG (icon_image 512))]>
                 (<[icon_192 := File true (PNG (icon_image 192))]> (fs w1))
    /\ stdout w' = stdout w1 ++ [Generated icon_192 192; Generated icon_512 512; AllGenerated]
    /\ stderr w' = stderr w1.
Proof.
  rewrite main_unfold. intros H.
  destruct (os.makedirs output_dir true w) as [[[]|e] w1]; [|discriminate].
  exists w1. split; [reflexivity|].
  destruct (create_icon 192 icon_192 w1) as [[[]|e] w2] eqn:H192; [|discriminate].
  destruct (create_icon 512 icon_512 w2) as [[[]|e] w3] eqn:H512; [|discriminate].
  apply create_icon_returned in H192 as (_ & Hw & ->).
  apply create_icon_returned in H512 as (_ & _ & ->).
  injection H as <-. cbn [fs stdout stderr]. rewrite <- !app_assoc.
  repeat split. assumption.
Qed.

(** C2: when [main] returns, started on a well-formed file tree in which
    the output directory does not exist, the directory and every
    directory above it exist, the directory holds exactly the two files
    icon-192.png and icon-512.png, they are PNG files of 192 by 192 and
    512 by 512 pixels, nothing that existed before was touched, and the
    script exits with status 0. *)
Theorem main_creates_directory_with_both_icons (w w' : world) :
  fs_wf (fs w) ->
  fs w !! output_dir = None ->
  main w = (Ok tt, w') ->
  (forall k, exists b, fs w' !! take k output_dir = Some (Dir b))
  /\ (forall name, is_Some (fs w' !! os.path_join output_dir name) <->
        name = "icon-192.png"%string \/ name = "icon-512.png"%string)
  /\ (exists img, fs w' !! os.path_join output_dir "icon-192.png" = Some (File true (PNG img))
        /\ draw_icon 192 = Ok img /\ width img = 192 /\ height img = 192)
  /\ (exists img, fs w' !! os.path_join output_dir "icon-512.png" = Some (File true (PNG img))
        /\ draw_icon 512 = Ok img /\ width img = 512 /\ height img = 512)
  /\ (forall q n, fs w !! q = Some n -> fs w' !! q = Some n)
  /\ run_script w = (0, w').
Proof.
  intros Hwf Hmissing Hmain.
  assert (Hrun : run_script w = (0, w')) by (unfold run_script; rewrite Hmain; reflexivity).
  destruct (main_returned w w' Hmain) as (w1 & Hmk & _ & Hfs & _ & _).
  destruct (makedirs_spec output_dir w) as (r & w1' & Hmk' & Hadds & _ & Hdir & Hwf1).
  rewrite Hmk in Hmk'. injection Hmk' as <- <-.
  destruct Hadds as (_ & _ & Hkeep & Hnew).
  destruct (Hdir eq_refl) as [b Hb]. specialize (Hwf1 Hwf).
  assert (Hchild : forall name, fs w1 !! (output_dir ++ [name]) = None).
  { intros name.
    destruct (Hnew (output_dir ++ [name])) as [H|[_ [k Hk]]]; [|assumption|].
    - apply fs_wf_child_of_missing; assumption.
    - exfalso. exact (child_not_ancestor _ _ _ Hk). }
  assert (Hne : icon_512 <> icon_192) by discriminate.
  assert (Hwf' : fs_wf (fs w')).
  { rewrite Hfs. apply fs_wf_insert.
    - apply fs_wf_insert; [assumption| |].
      + unfold icon_192, os.path_join. rewrite Hchild. discriminate.
      + intros _. unfold icon_192, os.path_join. rewrite dirname_snoc. eauto.
    - intros b'. rewrite lookup_insert_ne by congruence.
      unfold icon_512, os.path_join. rewrite Hchild. discriminate.
    - intros _. rewrite lookup_insert_ne.
      + unfold icon_512, os.path_join. rewrite dirname_snoc. eauto.
      + unfold icon_512, os.path_join. rewrite dirname_snoc. discriminate. }
  assert (Hdir' : fs w' !! output_dir = Some (Dir b)).
  { rewrite Hfs, !lookup_insert_ne by discriminate. assumption. }
  split; [|split; [|split; [|split; [|split]]]].
  - intros k. destruct (decide (k < length output_dir)%nat) as [Hk|Hk].
    + apply fs_wf_ancestors; [assumption|eauto|assumption].
    + rewrite take_ge by lia. eauto.
  - intros name. unfold os.path_join. rewrite Hfs. split.
    + intros [n Hn].
      destruct (decide (name = "icon-512.png"%string)) as [?|H512]; [auto|].
      destruct (decide (name = "icon-192.png"%string)) as [?|H192]; [auto|].
      rewrite !lookup_insert_ne, Hchild in Hn; [discriminate| |].
      * unfold icon_192, os.path_join. intros H. apply app_inj_tail in H as [_ H].
        congruence.
      * unfold icon_512, os.path_join. intros H. apply app_inj_tail in H as [_ H].
        congruence.
    + intros [->| ->].
      * rewrite lookup_insert_ne by discriminate.
        change (output_dir ++ ["icon-192.png"%string]) with icon_192.
        rewrite lookup_insert_eq. eauto.
      * change (output_dir ++ ["icon-512.png"%string]) with icon_512.
        rewrite lookup_insert_eq. eauto.
  - exists (icon_image 192). fold icon_192. rewrite Hfs.
    rewrite lookup_insert_ne by discriminate. rewrite lookup_insert_eq.
    repeat split.
  - exists (icon_image 512). fold icon_512. rewrite Hfs, lookup_insert_eq.
    repeat split.
  - intros q n Hq. rewrite Hfs.
    assert (Hq1 := Hkeep q n Hq).
    rewrite !lookup_insert_ne; [assumption| |].
    + intros <-. unfold icon_192, os.path_join in Hq1. rewrite Hchild in Hq1. discriminate.
    + intros <-. unfold icon_512, os.path_join in Hq1. rewrite Hchild in Hq1. discriminate.
  - assumption.
Qed.

Lemma fs_wf_empty_disk : fs_wf (fs empty_disk).
Proof.
  intros p n Hp Hne. cbn [fs empty_disk] in Hp.
  apply lookup_singleton_Some in Hp as [<- _]. congruence.
Qed.

Lemma main_creates_directory_with_both_icons_witness :
  (forall k, exists b, fs (main empty_disk).2 !! take k output_dir = Some (Dir b))
  /\ (forall name, is_Some (fs (main empty_disk).2 !! os.path_join output_dir name) <->
        name = "icon-192.png"%string \/ name = "icon-512.png"%string)
  /\ run_script empty_disk = (0, (main empty_disk).2).
Proof.
  assert (Hmissing : fs empty_disk !! output_dir = None) by (vm_compute; reflexivity).
  assert (Hmain : main empty_disk = (Ok tt, (main empty_disk).2))
    by (vm_compute; reflexivity).
  destruct (main_creates_directory_with_both_icons
              empty_disk _ fs_wf_empty_disk Hmissing Hmain)
    as (Hdirs & Hfiles & _ & _ & _ & Hexit).
  exact (conj Hdirs (conj Hfiles Hexit)).
Defined.

(** ** Errors *)




(** ** Independence *)

(** A write elsewhere does not take away the right to write. *)
Lemma can_write_after_other (w : world) (p q : path) (d : file_data)
    (out : list console_line) (err : list exn) :
  p <> q -> can_write w p = true -> can_write w q = true ->
  can_write (World (<[p := File true d]> (fs w)) out err) q = true.
Proof.
  unfold can_write. cbn [fs]. intros Hne Hp Hq.
  rewrite lookup_insert_ne by assumption.
  destruct (fs w !! q) as [n|]; [assumption|].
  destruct (decide (p = os.dirname q)) as [->|Hd].
  - destruct (fs w !! os.dirname q) as [[[]|b d']|]; discriminate.
  - rewrite lookup_insert_ne by assumption. assumption.
Qed.

Lemma can_write_before_other (w : world) (p q : path) (d : file_data)
    (out : list console_line) (err : list exn) :
  p <> q -> can_write (World (<[p := File true d]> (fs w)) out err) q = true ->
  can_write w q = true.
Proof.
  unfold can_write. cbn [fs]. intros Hne.
  rewrite lookup_insert_ne by assumption.
  destruct (fs w !! q) as [n|]; [auto|].
  destruct (decide (p = os.dirname q)) as [->|Hd].
  - rewrite lookup_insert_eq. discriminate.
  - rewrite lookup_insert_ne by assumption. auto.
Qed.

(** C9: a call of [create_icon], whether it returns or raises, changes
    no file but the one at its path, leaves the error stream alone and
    prints at most its one line; the world holds nothing else.  Calls on
    different paths do not interact: if one returns and then the other,
    they also return in the other order, with the same files at the end,
    and each file is what its call alone would have written. *)
Theorem create_icon_frame :
  (forall size p w r w', create_icon size p w = (r, w') ->
     (forall q, q <> p -> fs w' !! q = fs w !! q)
     /\ stderr w' = stderr w
     /\ (stdout w' = stdout w \/ stdout w' = stdout w ++ [Generated p size]))
  /\ (forall s1 s2 p1 p2 w w1 w2, p1 <> p2 ->
        create_icon s1 p1 w = (Ok tt, w1) ->
        create_icon s2 p2 w1 = (Ok tt, w2) ->
        exists w1' w2', create_icon s2 p2 w = (Ok tt, w1')
          /\ create_icon s1 p1 w1' = (Ok tt, w2')
          /\ fs w2' = fs w2
          /\ fs w2 !! p1 = fs w1 !! p1
          /\ fs w2 !! p2 = fs w1' !! p2).
Proof.
  split.
  - intros size p w r w' H. destruct r as [[]|e].
    + apply create_icon_returned in H as (_ & _ & ->). cbn [fs stdout stderr].
      split; [|auto]. intros q Hq. apply lookup_insert_ne. congruence.
    + destruct (create_icon_cases size p w) as [(H1 & _)|[[e1 H1]|(_ & _ & e1 & H1)]];
        rewrite H1 in H; [discriminate| |]; injection H as <- <-;
        cbn [fs stdout stderr]; [auto|].
      split; [|auto]. intros q Hq. apply lookup_insert_ne. congruence.
  - intros s1 s2 p1 p2 w w1 w2 Hne H1 H2.
    apply create_icon_returned in H1 as (Hs1 & Hw1 & ->).
    apply create_icon_returned in H2 as (Hs2 & Hw2 & ->).
    assert (Hw2' : can_write w p2 = true)
      by (eapply can_write_before_other; eassumption).
    do 2 eexists. split; [apply create_icon_ok; assumption|].
    split; [apply create_icon_ok; [assumption|]|].
    + apply can_write_after_other; [congruence|assumption|assumption].
    + cbn [fs]. split; [apply insert_insert_ne; congruence|].
      rewrite lookup_insert_ne by congruence. rewrite !lookup_insert_eq. auto.
Qed.

Lemma create_icon_frame_witness :
  fs (create_icon 192 icon_192 (World {[ output_dir := Dir true ]} [] [])).2
     !! output_dir = Some (Dir true).
Proof.
  set (w := World {[ output_dir := Dir true ]} [] []).
  destruct (proj1 create_icon_frame 192 icon_192 w _ _ (surjective_pairing _))
    as (Hframe & _ & _).
  rewrite Hframe by discriminate. vm_compute. reflexivity.
Defined.

(** * Further properties of the drawing *)

(** X1: for every positive size for which the canvas can be allocated,
    no drawing call raises: the drawing returns an image of size by
    size with exactly five layers, and the box of every layer is well
    ordered and lies within the box from (0, 0) to (size, size), the
    canvas and one pixel column and row past it. *)
Theorem drawing_stays_on_canvas (size : Z) (canvas : image) :
  0 < size ->
  Image.new "RGBA" (size, size) (RGBA 0 0 0 0) = Ok canvas ->
  exists img, draw_icon size = Ok img
    /\ width img = width canvas /\ height img = height canvas
    /\ width img = size /\ height img = size
    /\ length (layers img) = 5%nat
    /\ forall l, In l (layers img) ->
         0 <= x0 (shape_box (layer_shape l)) <= x1 (shape_box (layer_shape l))
         /\ x1 (shape_box (layer_shape l)) <= size
         /\ 0 <= y0 (shape_box (layer_shape l)) <= y1 (shape_box (layer_shape l))
         /\ y1 (shape_box (layer_shape l)) <= size.
Proof.
  intros Hsize Hcanvas. exists (icon_image size).
  split; [apply draw_icon_ok; lia|].
  unfold Image.new in Hcanvas. cbn [fst snd] in Hcanvas.
  destruct (_ || _); [discriminate|]. injection Hcanvas as <-.
  do 5 (split; [reflexivity|]).
  intros l Hl. cbn in Hl.
  destruct Hl as [<-|[<-|[<-|[<-|[<-|[]]]]]];
    cbn [layer_shape shape_box inset_circle bag_body bag_handle x0 x1 y0 y1];
    div_lia.
Qed.

Lemma drawing_stays_on_canvas_witness :
  exists img, draw_icon 512 = Ok img
    /\ width img = 512 /\ height img = 512
    /\ width img = 512 /\ height img = 512
    /\ length (layers img) = 5%nat
    /\ forall l, In l (layers img) ->
         0 <= x0 (shape_box (layer_shape l)) <= x1 (shape_box (layer_shape l))
         /\ x1 (shape_box (layer_shape l)) <= 512
         /\ 0 <= y0 (shape_box (layer_shape l)) <= y1 (shape_box (layer_shape l))
         /\ y1 (shape_box (layer_shape l)) <= 512.
Proof.
  apply (drawing_stays_on_canvas 512 (MkImage "RGBA" 512 512 (RGBA 0 0 0 0) []));
    [lia|reflexivity].
Defined.

(** Whatever is painted is the background or the ink of a layer. *)
Lemma paint_background_or_ink (ls : list layer) (bg : rgba) (x y : Z) :
  Raster.paint ls bg x y = bg \/ In (Raster.paint ls bg x y) (map layer_ink ls).
Proof.
  induction ls as [|l ls IH] using rev_ind; [left; reflexivity|].
  rewrite paint_snoc, map_app, !in_app_iff. cbn [map In].
  destruct (Raster.covers (layer_shape l) x y); [auto|].
  destruct IH; auto.
Qed.

(** X2: the icon has three colours and no partial transparency: every
    pixel of an icon of any size is fully transparent, white or the
    accent colour #9333ea, so its alpha is 0 or 255. *)
Theorem icon_has_three_colours (size x y : Z) (c : rgba) :
  icon_pixel size x y = Some c ->
  (c = transparent \/ c = white \/ c = accent)
  /\ (alpha c = 0 \/ alpha c = 255).
Proof.
  intros H. unfold icon_pixel in H.
  destruct (Z.lt_ge_cases size 0) as [Hneg|Hsize].
  { rewrite draw_icon_negative in H by assumption. discriminate. }
  rewrite draw_icon_ok in H by assumption. unfold Image.getpixel in H.
  destruct (_ && _); [|discriminate].
  assert (Hc : Raster.paint (layers (icon_image size)) (background (icon_image size)) x y = c)
    by congruence.
  change (Raster.paint (icon_layers size) transparent x y = c) in Hc.
  pose proof (paint_background_or_ink (icon_layers size) transparent x y) as Hp.
  rewrite Hc in Hp. clear H Hc. cbn in Hp.
  destruct Hp as [->|[<-|[<-|[<-|[<-|[<-|[]]]]]]]; cbn; auto.
Qed.

Lemma icon_has_three_colours_witness :
  (white = transparent \/ white = white \/ white = accent)
  /\ (alpha white = 0 \/ alpha white = 255).
Proof.
  apply (icon_has_three_colours 192 96 96 white). vm_compute. reflexivity.
Defined.

(** X3: at the sizes where the two insets size/8 and size/6 coincide
    (1 to 5, 8 to 11, 16 and 17) the white contrast circle has no
    effect: the third circle covers it exactly, and every pixel is what
    it would be had the white circle not been drawn. *)
Theorem white_circle_hidden (size x y : Z) :
  0 < size ->
  size <= 5 \/ 8 <= size <= 11 \/ 16 <= size <= 17 ->
  size / 8 = size / 6
  /\ Raster.paint (icon_layers size) transparent x y =
     Raster.paint (delete 1%nat (icon_layers size)) transparent x y.
Proof.
  intros Hsize Hcases.
  assert (Heq : size / 8 = size / 6) by div_lia.
  split; [assumption|].
  unfold Raster.paint, icon_layers. cbn [delete list_delete fold_left layer_shape layer_ink].
  rewrite Heq.
  destruct (Raster.covers (inset_circle size (size / 6)) x y); reflexivity.
Qed.

Lemma white_circle_hidden_witness :
  8 / 8 = 8 / 6
  /\ Raster.paint (icon_layers 8) transparent 4 1 =
     Raster.paint (delete 1%nat (icon_layers 8)) transparent 4 1.
Proof. apply (white_circle_hidden 8 4 1); lia. Defined.

(** X4: where the inner inset exceeds the outer one by at least two
    pixels (every size from 48 on, so 192 and 512) the white contrast
    ring is visible: the pixel (size/2, size/8 + 1) is white in the
    finished icon. *)
Theorem white_ring_visible (size : Z) :
  0 < size ->
  size / 8 + 2 <= size / 6 ->
  icon_pixel size (size / 2) (size / 8 + 1) = Some white.
Proof.
  intros Hsize Hgap.
  set (m := size / 8) in *. set (m2 := size / 6) in *.
  assert (Hm : 0 <= m /\ 2 * m < size /\ 2 * m2 < size) by (unfold m, m2; div_lia).
  assert (Hx : 2 * (size / 2) - size = 0 \/ 2 * (size / 2) - size = -1) by div_lia.
  assert (Htop : m2 <= size / 3 - size / 6 / 2 /\ m2 <= size / 3)
    by (unfold m2; div_lia).
  rewrite icon_pixel_inside by (fold m; div_lia). f_equal.
  rewrite paint_icon_layers. fold m m2.
  destruct (Raster.covers (bag_handle size) _ _) eqn:Hh.
  { apply covers_bag_handle in Hh. lia. }
  destruct (Raster.covers (bag_body size) _ _) eqn:Hb.
  { apply covers_bag_body in Hb. lia. }
  destruct (Raster.covers (inset_circle size m2) _ _) eqn:H3c.
  { apply covers_inset_circle in H3c; [|lia]. nia. }
  destruct (Raster.covers (inset_circle size m) _ _) eqn:H2c; [reflexivity|].
  apply not_true_iff_false in H2c. exfalso. apply H2c.
  apply covers_inset_circle; [lia|]. nia.
Qed.

Lemma white_ring_visible_witness :
  icon_pixel 192 (192 / 2) (192 / 8 + 1) = Some white.
Proof. apply (white_ring_visible 192); [lia|]. vm_compute. discriminate. Defined.

(** X5: from size 16 on the bag body lies on the inner accent disc:
    every pixel of the rectangle is inside the third circle, so the bag
    never reaches into the white ring. *)
Theorem bag_body_on_inner_disc (size x y : Z) :
  16 <= size ->
  Raster.covers (bag_body size) x y = true ->
  Raster.covers (inset_circle size (size / 6)) x y = true.
Proof.
  intros Hsize Hb. apply covers_bag_body in Hb.
  apply covers_inset_circle; [div_lia|].
  set (R := size - 2 * (size / 6)).
  assert (HR : 2 * size <= 3 * R) by (unfold R; div_lia).
  assert (HX : - (size + 4) <= 3 * (2 * x - size) <= size + 4) by div_lia.
  assert (HY : - (size + 4) <= 3 * (2 * y - size) <= size + 4) by div_lia.
  set (X := 2 * x - size) in *. set (Y := 2 * y - size) in *.
  assert (HX2 : 9 * (X * X) <= (size + 4) * (size + 4)) by nia.
  assert (HY2 : 9 * (Y * Y) <= (size + 4) * (size + 4)) by nia.
  assert (HS : 2 * ((size + 4) * (size + 4)) <= 4 * (size * size)) by nia.
  assert (HR2 : 4 * (size * size) <= 9 * (R * R)) by nia.
  lia.
Qed.

Lemma bag_body_on_inner_disc_witness :
  Raster.covers (inset_circle 192 (192 / 6)) 64 64 = true.
Proof.
  apply (bag_body_on_inner_disc 192 64 64); [lia|]. vm_compute. reflexivity.
Defined.

(** * Further properties of the calls on the file system *)

(** X6: a negative size is refused before the file system is looked at:
    [create_icon] raises [ValueError] whatever the path, writable or
    not, and writes and prints nothing. *)
Theorem create_icon_rejects_negative_size (size : Z) (p : path) (w : world) :
  size < 0 ->
  draw_icon size = Raise (ValueError "Width and height must be >= 0")
  /\ create_icon size p w = (Raise (ValueError "Width and height must be >= 0"), w)
  /\ (forall e w', create_icon size p w = (Raise e, w') ->
        forall oe, e <> OSError oe).
Proof.
  intros Hsize. split; [apply draw_icon_negative; assumption|].
  split; [apply create_icon_negative; assumption|].
  intros e w' H oe. rewrite create_icon_negative in H by assumption. congruence.
Qed.

Lemma create_icon_rejects_negative_size_witness :
  create_icon (-1) icon_192 readonly_disk
  = (Raise (ValueError "Width and height must be >= 0"), readonly_disk).
Proof.
  apply (create_icon_rejects_negative_size (-1) icon_192 readonly_disk). lia.
Defined.

(** A missing directory with no regular file on the way to it is not
    found. *)
Lemma lookup_error_not_found (m : gmap path node) (rest seen fp : path) :
  (forall k b d, m !! (seen ++ take k rest) <> Some (File b d)) ->
  os.lookup_error m seen rest fp = FileNotFoundError fp.
Proof.
  revert seen. induction rest as [|name rest IH]; intros seen Hno; [reflexivity|].
  cbn [os.lookup_error].
  destruct (m !! (seen ++ [name])) as [[b|b d]|] eqn:Hn; [|exfalso|reflexivity].
  - apply IH. intros k b' d'. rewrite <- app_assoc. exact (Hno (S k) b' d').
  - specialize (Hno 1%nat b d). cbn [take] in Hno. rewrite take_0 in Hno. exact (Hno Hn).
Qed.

(** A regular file on the way, below directories, is not a directory. *)
Lemma lookup_error_not_a_directory (m : gmap path node) (k : nat) (rest seen fp : path)
    (b : bool) (d : file_data) :
  (k < length rest)%nat ->
  m !! (seen ++ take (S k) rest) = Some (File b d) ->
  (forall j, (1 <= j <= k)%nat -> exists b', m !! (seen ++ take j rest) = Some (Dir b')) ->
  os.lookup_error m seen rest fp = NotADirectoryError fp.
Proof.
  revert rest seen. induction k as [|k IH]; intros [|name rest] seen Hk Hfile Hdirs;
    cbn [length] in Hk; try lia; cbn [os.lookup_error].
  - cbn [take] in Hfile. rewrite take_0 in Hfile. rewrite Hfile. reflexivity.
  - destruct (Hdirs 1%nat ltac:(lia)) as [b' Hb'].
    cbn [take] in Hb'. rewrite take_0 in Hb'. rewrite Hb'.
    apply IH; [lia| |].
    + rewrite <- app_assoc. exact Hfile.
    + intros j Hj. rewrite <- app_assoc. apply (Hdirs (S j)). lia.
Qed.

(** X7: [create_icon] never creates a directory and never writes where
    it may not.  For a positive size, with the world left as it was: on a
    path that is a directory it raises [IsADirectoryError]; on a
    read-only file, [PermissionError]; on a missing path whose directory
    is read-only, [PermissionError]; whose directory is a file,
    [NotADirectoryError]; whose directory is missing,
    [NotADirectoryError] when the way to it leads, through directories,
    to a regular file, and [FileNotFoundError] when no regular file is
    on the way. *)
Theorem create_icon_failure_modes (size : Z) (p : path) (w : world) :
  0 < size ->
  (forall b, fs w !! p = Some (Dir b) ->
     create_icon size p w = (Raise (OSError (IsADirectoryError p)), w))
  /\ (forall d, fs w !! p = Some (File false d) ->
        create_icon size p w = (Raise (OSError (PermissionError p)), w))
  /\ (fs w !! p = None -> fs w !! os.dirname p = Some (Dir false) ->
        create_icon size p w = (Raise (OSError (PermissionError p)), w))
  /\ (forall b d, fs w !! p = None -> fs w !! os.dirname p = Some (File b d) ->
        create_icon size p w = (Raise (OSError (NotADirectoryError p)), w))
  /\ (forall k b d, fs w !! p = None -> fs w !! os.dirname p = None ->
        (k < length (os.dirname p))%nat ->
        fs w !! take (S k) (os.dirname p) = Some (File b d) ->
        (forall j, (1 <= j <= k)%nat ->
           exists b', fs w !! take j (os.dirname p) = Some (Dir b')) ->
        create_icon size p w = (Raise (OSError (NotADirectoryError p)), w))
  /\ (fs w !! p = None -> fs w !! os.dirname p = None ->
        (forall k b d, fs w !! take k (os.dirname p) <> Some (File b d)) ->
        create_icon size p w = (Raise (OSError (FileNotFoundError p)), w)).
Proof.
  intros Hsize.
  assert (Hrun : forall r, ImageFile.write_file p (PNG (icon_image size)) w = (Raise r, w) ->
                           create_icon size p w = (Raise r, w)).
  { intros r Hr. rewrite create_icon_positive, Hr by assumption. reflexivity. }
  split; [|split; [|split; [|split; [|split]]]].
  - intros b H. apply Hrun. unfold ImageFile.write_file. rewrite H. reflexivity.
  - intros d H. apply Hrun. unfold ImageFile.write_file. rewrite H. reflexivity.
  - intros H Hd. apply Hrun. unfold ImageFile.write_file. rewrite H, Hd. reflexivity.
  - intros b d H Hd. apply Hrun. unfold ImageFile.write_file. rewrite H, Hd. reflexivity.
  - intros k b d H Hd Hk Hfile Hdirs. apply Hrun. unfold ImageFile.write_file.
    rewrite H, Hd.
    rewrite (lookup_error_not_a_directory (fs w) k (os.dirname p) [] p b d Hk Hfile Hdirs).
    reflexivity.
  - intros H Hd Hno. apply Hrun. unfold ImageFile.write_file. rewrite H, Hd.
    rewrite (lookup_error_not_found (fs w) (os.dirname p) [] p Hno). reflexivity.
Qed.

Lemma create_icon_failure_modes_witness :
  create_icon 192 icon_192 empty_disk
  = (Raise (OSError (FileNotFoundError icon_192)), empty_disk)
  /\ create_icon 192 ["f"; "d"; "icon.png"]%string
       (World {[ [] := Dir true; ["f"%string] := File true (Blob []) ]} [] [])
     = (Raise (OSError (NotADirectoryError ["f"; "d"; "icon.png"]%string)),
        World {[ [] := Dir true; ["f"%string] := File true (Blob []) ]} [] []).
Proof.
  split.
  - apply (create_icon_failure_modes 192 icon_192 empty_disk);
      [lia|vm_compute; reflexivity|vm_compute; reflexivity|].
    intros k b d. destruct k as [|[|[|[|[|[|k]]]]]]; vm_compute; discriminate.
  - assert (Hsize : 0 < 192) by lia.
    refine (proj1 (proj2 (proj2 (proj2 (proj2
              (create_icon_failure_modes 192 ["f"; "d"; "icon.png"]%string _ Hsize)))))
              0%nat true (Blob []) _ _ _ _ _).
    + vm_compute. reflexivity.
    + vm_compute. reflexivity.
    + vm_compute. lia.
    + vm_compute. reflexivity.
    + intros j Hj. lia.
Defined.

(** [os.makedirs(name, exist_ok=True)] on a path that exists in an
    existing directory: nothing to do for a directory, an error for a
    file. *)
Lemma mkdir_unless_isdir_existing (p : path) (n : node) (w : world) :
  fs w !! p = Some n ->
  os.mkdir_unless_isdir p true w =
  match n with
  | Dir _ => (Ok tt, w)
  | File _ _ => (Raise (OSError (FileExistsError p)), w)
  end.
Proof.
  intros Hp. unfold os.mkdir_unless_isdir, os.mkdir, os.path_isdir.
  rewrite Hp. cbv iota. rewrite Hp. destruct n; reflexivity.
Qed.

Lemma makedirs_existing (name : path) (n : node) (w : world) :
  fs w !! name = Some n -> is_Some (fs w !! os.dirname name) ->
  os.makedirs name true w =
  match n with
  | Dir _ => (Ok tt, w)
  | File _ _ => (Raise (OSError (FileExistsError name)), w)
  end.
Proof.
  intros Hn [up Hup]. unfold os.makedirs.
  destruct (reverse name) as [|tail rhead] eqn:Hrev.
  - assert (name = []) as -> by (apply (f_equal reverse) in Hrev;
      rewrite reverse_involutive in Hrev; exact Hrev).
    cbn [os.makedirs_rev]. apply mkdir_unless_isdir_existing. assumption.
  - assert (Hname : name = reverse (tail :: rhead))
      by (rewrite <- Hrev, reverse_involutive; reflexivity).
    assert (Hhead : os.dirname name = reverse rhead).
    { rewrite Hname, reverse_cons. apply dirname_snoc. }
    cbn [os.makedirs_rev]. unfold mbind at 1 2, M_bind, os.path_exists.
    rewrite <- Hhead, Hup. cbn [mret M_ret]. rewrite <- Hname.
    rewrite (mkdir_unless_isdir_existing name n w Hn). destruct n; reflexivity.
Qed.

(** X8: [exist_ok=True] forgives an existing directory, not a file: when
    the output path is a file, [main] raises [FileExistsError] for it and
    writes and prints nothing. *)
Theorem main_refuses_file_in_place_of_directory (w : world) (b : bool) (d : file_data) :
  fs w !! output_dir = Some (File b d) ->
  is_Some (fs w !! os.dirname output_dir) ->
  main w = (Raise (OSError (FileExistsError output_dir)), w)
  /\ run_script w
     = (1, World (fs w) (stdout w) (stderr w ++ [OSError (FileExistsError output_dir)])).
Proof.
  intros Hfile Hup.
  assert (Hmain : main w = (Raise (OSError (FileExistsError output_dir)), w)).
  { rewrite main_unfold, (makedirs_existing _ _ _ Hfile Hup). reflexivity. }
  split; [assumption|]. unfold run_script. rewrite Hmain. reflexivity.
Qed.

Lemma main_refuses_file_in_place_of_directory_witness :
  main (World {[ os.dirname output_dir := Dir true;
                 output_dir := File true (Blob []) ]} [] [])
  = (Raise (OSError (FileExistsError output_dir)),
     World {[ os.dirname output_dir := Dir true;
              output_dir := File true (Blob []) ]} [] []).
Proof.
  refine (proj1 (main_refuses_file_in_place_of_directory _ true (Blob []) _ _)).
  - vm_compute. reflexivity.
  - exists (Dir true). vm_compute. reflexivity.
Defined.

(** [main] in a directory that is already there. *)
Lemma main_in_existing_dir (w : world) (b : bool) :
  fs w !! output_dir = Some (Dir b) ->
  is_Some (fs w !! os.dirname output_dir) ->
  can_write w icon_192 = true -> can_write w icon_512 = true ->
  main w =
  (Ok tt, World (<[icon_512 := File true (PNG (icon_image 512))]>
                   (<[icon_192 := File true (PNG (icon_image 192))]> (fs w)))
                (stdout w ++ [Generated icon_192 192; Generated icon_512 512; AllGenerated])
                (stderr w)).
Proof.
  intros Hdir Hup H192 H512.
  rewrite main_unfold, (makedirs_existing _ _ _ Hdir Hup).
  rewrite create_icon_ok by (assumption || lia).
  rewrite create_icon_ok; [|lia|].
  - cbn [fs stdout stderr]. rewrite <- !app_assoc. reflexivity.
  - apply can_write_after_other; [discriminate|assumption|assumption].
Qed.

(** X9: when the output directory already exists, [main] returns exactly
    when both icon paths can be written (each is missing in a writable
    directory, or is a writable file); it then replaces whatever was at
    the two paths with the new images, keeps everything else, and prints
    its three lines. *)
Theorem main_in_existing_directory (w : world) (b : bool) :
  fs w !! output_dir = Some (Dir b) ->
  is_Some (fs w !! os.dirname output_dir) ->
  ((exists w', main w = (Ok tt, w')) <->
   can_write w icon_192 = true /\ can_write w icon_512 = true)
  /\ (forall w', main w = (Ok tt, w') ->
        fs w' = <[icon_512 := File true (PNG (icon_image 512))]>
                  (<[icon_192 := File true (PNG (icon_image 192))]> (fs w))
        /\ stdout w' = stdout w ++ [Generated icon_192 192; Generated icon_512 512;
                                   AllGenerated]
        /\ stderr w' = stderr w).
Proof.
  intros Hdir Hup.
  assert (Hback : forall w', main w = (Ok tt, w') ->
            can_write w icon_192 = true /\ can_write w icon_512 = true).
  { intros w' H. rewrite main_unfold, (makedirs_existing _ _ _ Hdir Hup) in H.
    destruct (create_icon_cases 192 icon_192 w)
      as [(H1 & _ & Hw1)|[[e H1]|(Hz & _)]];
      [rewrite H1 in H|rewrite H1 in H; discriminate|discriminate Hz].
    split; [assumption|].
    destruct (create_icon_cases 512 icon_512
                (World (<[icon_192 := File true (PNG (icon_image 192))]> (fs w))
                       (stdout w ++ [Generated icon_192 192]) (stderr w)))
      as [(H2 & _ & Hw2)|[[e H2]|(Hz & _)]];
      [rewrite H2 in H|rewrite H2 in H; discriminate|discriminate Hz].
    apply can_write_before_other in Hw2; [assumption|discriminate]. }
  split.
  - split.
    + intros [w' H]. eauto.
    + intros [H192 H512]. eexists. apply (main_in_existing_dir w b); assumption.
  - intros w' H. destruct (Hback w' H) as [H192 H512].
    rewrite (main_in_existing_dir w b Hdir Hup H192 H512) in H.
    injection H as <-. repeat split.
Qed.

Lemma main_in_existing_directory_witness :
  fs (main (World {[ os.dirname output_dir := Dir true; output_dir := Dir true;
                     icon_192 := File true (Blob [1; 2; 3]) ]} [] [])).2 !! icon_192
  = Some (File true (PNG (icon_image 192))).
Proof.
  set (w := World {[ os.dirname output_dir := Dir true; output_dir := Dir true;
                     icon_192 := File true (Blob [1; 2; 3]) ]} [] []).
  assert (Hdir : fs w !! output_dir = Some (Dir true)) by (vm_compute; reflexivity).
  assert (Hup : is_Some (fs w !! os.dirname output_dir))
    by (exists (Dir true); vm_compute; reflexivity).
  assert (Hmain : main w = (Ok tt, (main w).2)) by (vm_compute; reflexivity).
  destruct (proj2 (main_in_existing_directory w true Hdir Hup) _ Hmain) as (Hfs & _ & _).
  rewrite Hfs. vm_compute. reflexivity.
Defined.

(** Writing a file where [create_icon] may write keeps the tree well
    formed. *)
Lemma fs_wf_write (w : world) (p : path) (d : file_data) :
  fs_wf (fs w) -> can_write w p = true -> fs_wf (<[p := File true d]> (fs w)).
Proof.
  intros Hwf Hw. unfold can_write in Hw. apply fs_wf_insert; [assumption| |].
  - intros b Hb. rewrite Hb in Hw. discriminate.
  - intros Hne. destruct (fs w !! p) as [n|] eqn:Hp.
    + exact (Hwf p n Hp Hne).
    + destruct (fs w !! os.dirname p) as [[[]|b' d']|]; try discriminate. eauto.
Qed.

Lemma create_icon_wf (size : Z) (p : path) (w : world) :
  fs_wf (fs w) -> fs_wf (fs (create_icon size p w).2).
Proof.
  intros Hwf.
  destruct (create_icon_cases size p w) as [(H & _ & Hw)|[[e H]|(_ & Hw & e & H)]];
    rewrite H; cbn [snd fs]; [|assumption|]; apply fs_wf_write; assumption.
Qed.

Lemma main_wf (w : world) : fs_wf (fs w) -> fs_wf (fs (main w).2).
Proof.
  intros Hwf. rewrite main_unfold.
  destruct (makedirs_spec output_dir w) as (r & w1 & Hmk & _ & _ & _ & Hwf1).
  rewrite Hmk. specialize (Hwf1 Hwf).
  destruct r as [[]|e]; [|assumption].
  pose proof (create_icon_wf 192 icon_192 w1 Hwf1) as Hwf2.
  destruct (create_icon 192 icon_192 w1) as [[[]|e] w2]; [|assumption].
  pose proof (create_icon_wf 512 icon_512 w2 Hwf2) as Hwf3.
  destruct (create_icon 512 icon_512 w2) as [[[]|e] w3]; assumption.
Qed.

(** X10: the script keeps the file tree well formed.  Started on a tree
    in which everything below the root lies in a directory, [main] and
    every single [create_icon] leave such a tree, whether they return or
    raise: no file is ever written outside an existing directory, and no
    directory is ever replaced by a file. *)
Theorem file_tree_stays_well_formed (w : world) :
  fs_wf (fs w) ->
  fs_wf (fs (main w).2)
  /\ fs_wf (fs (run_script w).2)
  /\ (forall size p, fs_wf (fs (create_icon size p w).2))
  /\ (forall size p q b, fs w !! q = Some (Dir b) ->
        fs (create_icon size p w).2 !! q = Some (Dir b)).
Proof.
  intros Hwf. split; [apply main_wf; assumption|]. split; [|split].
  - pose proof (main_wf w Hwf) as H. unfold run_script.
    destruct (main w) as [[[]|e] w']; exact H.
  - intros size p. apply create_icon_wf. assumption.
  - intros size p q b Hq.
    destruct (create_icon_cases size p w) as [(H & _ & Hw)|[[e H]|(_ & Hw & e & H)]];
      rewrite H; cbn [snd fs]; [|assumption|];
      (rewrite lookup_insert_ne; [assumption|];
       intros <-; unfold can_write in Hw; rewrite Hq in Hw; discriminate).
Qed.

Lemma file_tree_stays_well_formed_witness :
  fs_wf (fs (main empty_disk).2).
Proof. exact (proj1 (file_tree_stays_well_formed empty_disk fs_wf_empty_disk)). Defined.

(** X11: running the script again changes no file.  After a run of
    [main] that returned, on a well-formed tree, a second run returns
    too, leaves the file system exactly as the first run left it, and
    prints its three lines once more. *)
Theorem main_rerun_changes_no_file (w w' : world) :
  fs_wf (fs w) ->
  main w = (Ok tt, w') ->
  exists w'', main w' = (Ok tt, w'')
    /\ fs w'' = fs w'
    /\ stdout w'' = stdout w' ++ [Generated icon_192 192; Generated icon_512 512;
                                  AllGenerated].
Proof.
  intros Hwf Hmain.
  assert (Hwf' : fs_wf (fs w')).
  { pose proof (main_wf w Hwf) as H. rewrite Hmain in H. exact H. }
  destruct (main_returned w w' Hmain) as (w1 & Hmk & _ & Hfs & _ & _).
  destruct (makedirs_spec output_dir w) as (r & w1' & Hmk' & _ & _ & Hdir & _).
  rewrite Hmk in Hmk'. injection Hmk' as <- <-.
  destruct (Hdir eq_refl) as [b Hb].
  assert (Hdir' : fs w' !! output_dir = Some (Dir b)).
  { rewrite Hfs, !lookup_insert_ne by discriminate. assumption. }
  assert (Hup : is_Some (fs w' !! os.dirname output_dir)).
  { destruct (fs_wf_ancestors (fs w') output_dir Hwf' (mk_is_Some _ _ Hdir') 4%nat)
      as [b' Hb']; [cbn; lia|]. exists (Dir b'). exact Hb'. }
  assert (H192 : fs w' !! icon_192 = Some (File true (PNG (icon_image 192)))).
  { rewrite Hfs, lookup_insert_ne by discriminate. apply lookup_insert_eq. }
  assert (H512 : fs w' !! icon_512 = Some (File true (PNG (icon_image 512)))).
  { rewrite Hfs. apply lookup_insert_eq. }
  eexists. split.
  - apply (main_in_existing_dir w' b Hdir' Hup); unfold can_write.
    + rewrite H192. reflexivity.
    + rewrite H512. reflexivity.
  - cbn [fs stdout]. split; [|reflexivity].
    rewrite (insert_id (fs w') icon_192) by assumption.
    apply insert_id. assumption.
Qed.

Lemma main_rerun_changes_no_file_witness :
  exists w'', main (main empty_disk).2 = (Ok tt, w'')
    /\ fs w'' = fs (main empty_disk).2
    /\ stdout w'' = stdout (main empty_disk).2
                    ++ [Generated icon_192 192; Generated icon_512 512; AllGenerated].
Proof.
  apply (main_rerun_changes_no_file empty_disk _ fs_wf_empty_disk).
  vm_compute. reflexivity.
Defined.

(** The paths [os.makedirs] may add are the ancestors of its argument. *)
Lemma on_the_way (q name : path) (k : nat) :
  reverse q = drop k (reverse name) -> q = take (length name - k) name.
Proof.
  intros H. rewrite drop_reverse in H.
  apply (f_equal reverse) in H. rewrite !reverse_involutive in H. exact H.
Qed.

(** X12: whatever its outcome, [main] touches nothing but its outputs.
    It leaves the error stream alone; every file or directory that
    existed, other than the two icon paths, is still there unchanged;
    what is new, other than the two icons, is a writable directory at the
    output path or above it; and an icon path holds what it held before
    or a new PNG. *)
Theorem main_touches_only_its_outputs (w : world) (r : result unit) (w' : world) :
  main w = (r, w') ->
  stderr w' = stderr w
  /\ (forall q n, fs w !! q = Some n -> q <> icon_192 -> q <> icon_512 ->
        fs w' !! q = Some n)
  /\ (forall q, fs w !! q = None -> q <> icon_192 -> q <> icon_512 ->
        fs w' !! q = None
        \/ (fs w' !! q = Some (Dir true) /\ exists k, q = take k output_dir))
  /\ (forall q, q = icon_192 \/ q = icon_512 ->
        fs w' !! q = fs w !! q
        \/ exists img, fs w' !! q = Some (File true (PNG img))).
Proof.
  intros Hmain. rewrite main_unfold in Hmain.
  destruct (makedirs_spec output_dir w) as (r1 & w1 & Hmk & Hadds & _ & _ & _).
  rewrite Hmk in Hmain. destruct Hadds as (_ & Herr & Hkeep & Hnew).
  assert (Hicon : forall name, fs w1 !! (output_dir ++ [name]) = fs w !! (output_dir ++ [name])).
  { intros name. destruct (fs w !! (output_dir ++ [name])) as [n|] eqn:Hq; [auto|].
    destruct (Hnew _ Hq) as [H|[_ [k Hk]]]; [assumption|].
    exfalso. exact (child_not_ancestor _ _ _ Hk). }
  assert (Hgoal : forall w2, stderr w2 = stderr w1 ->
      (forall q, q <> icon_192 -> q <> icon_512 -> fs w2 !! q = fs w1 !! q) ->
      (forall q, q = icon_192 \/ q = icon_512 ->
         fs w2 !! q = fs w1 !! q \/ exists img, fs w2 !! q = Some (File true (PNG img))) ->
      stderr w2 = stderr w
      /\ (forall q n, fs w !! q = Some n -> q <> icon_192 -> q <> icon_512 ->
            fs w2 !! q = Some n)
      /\ (forall q, fs w !! q = None -> q <> icon_192 -> q <> icon_512 ->
            fs w2 !! q = None
            \/ (fs w2 !! q = Some (Dir true) /\ exists k, q = take k output_dir))
      /\ (forall q, q = icon_192 \/ q = icon_512 ->
            fs w2 !! q = fs w !! q
            \/ exists img, fs w2 !! q = Some (File true (PNG img)))).
  { intros w2 He Hother Hicons. split; [congruence|]. split; [|split].
    - intros q n Hq H1 H2. rewrite Hother by assumption. auto.
    - intros q Hq H1 H2. rewrite Hother by assumption.
      destruct (Hnew q Hq) as [H|[H [k Hk]]]; [auto|].
      right. split; [assumption|]. eexists. apply (on_the_way _ _ _ Hk).
    - intros q Hq. destruct (Hicons q Hq) as [H|H]; [|auto].
      left. rewrite H. destruct Hq as [-> | ->]; apply Hicon. }
  destruct r1 as [[]|e1].
  2:{ injection Hmain as <- <-. apply Hgoal; auto. }
  destruct (create_icon_cases 192 icon_192 w1) as [(H1 & _ & _)|[[e H1]|(Hz & _)]];
    [rewrite H1 in Hmain|rewrite H1 in Hmain|discriminate Hz].
  2:{ injection Hmain as <- <-. apply Hgoal; auto. }
  match type of Hmain with context [create_icon 512 icon_512 ?w2] =>
    destruct (create_icon_cases 512 icon_512 w2) as [(H2 & _ & _)|[[e H2]|(Hz & _)]];
      [rewrite H2 in Hmain|rewrite H2 in Hmain|discriminate Hz]
  end; injection Hmain as <- <-; apply Hgoal; cbn [fs stderr]; try reflexivity.
  - intros q Hq1 Hq2. rewrite !lookup_insert_ne by congruence. reflexivity.
  - intros q [-> | ->]; right.
    + rewrite lookup_insert_ne by discriminate. rewrite lookup_insert_eq. eauto.
    + rewrite lookup_insert_eq. eauto.
  - intros q Hq1 Hq2. rewrite !lookup_insert_ne by congruence. reflexivity.
  - intros q [-> | ->].
    + right. rewrite lookup_insert_eq. eauto.
    + left. rewrite lookup_insert_ne by discriminate. reflexivity.
Qed.

Lemma main_touches_only_its_outputs_witness :
  stderr (main readonly_disk).2 = stderr readonly_disk
  /\ fs (main empty_disk).2 !! [] = Some (Dir true).
Proof.
  split.
  - exact (proj1 (main_touches_only_its_outputs readonly_disk _ _ (surjective_pairing _))).
  - refine (proj1 (proj2 (main_touches_only_its_outputs empty_disk _ _
                            (surjective_pairing _))) [] (Dir true) _ _ _);
      [vm_compute; reflexivity|discriminate|discriminate].
Defined.

(** X13: the console tells what was written, and nothing is rolled
    back.  A run of [main] ends in one of three ways: it returns, having
    printed its three lines in order, with both icons in place; or it
    raises after printing only the line for the first icon, which is then
    in place although the run failed; or it raises having printed
    nothing.  The closing line is printed only when both icons were
    written. *)
Theorem console_tells_what_was_written (w : world) (r : result unit) (w' : world) :
  main w = (r, w') ->
  (r = Ok tt
   /\ stdout w' = stdout w ++ [Generated icon_192 192; Generated icon_512 512; AllGenerated]
   /\ fs w' !! icon_192 = Some (File true (PNG (icon_image 192)))
   /\ fs w' !! icon_512 = Some (File true (PNG (icon_image 512))))
  \/ ((exists e, r = Raise e)
      /\ stdout w' = stdout w ++ [Generated icon_192 192]
      /\ fs w' !! icon_192 = Some (File true (PNG (icon_image 192))))
  \/ ((exists e, r = Raise e) /\ stdout w' = stdout w).
Proof.
  intros Hmain. rewrite main_unfold in Hmain.
  destruct (makedirs_spec output_dir w) as (r1 & w1 & Hmk & Hadds & _ & _ & _).
  rewrite Hmk in Hmain. destruct Hadds as (Hout & _).
  destruct r1 as [[]|e1].
  2:{ injection Hmain as <- <-. right; right. eauto. }
  destruct (create_icon_cases 192 icon_192 w1) as [(H1 & _ & _)|[[e H1]|(Hz & _)]];
    [rewrite H1 in Hmain|rewrite H1 in Hmain|discriminate Hz].
  2:{ injection Hmain as <- <-. right; right. eauto. }
  match type of Hmain with context [create_icon 512 icon_512 ?w2] =>
    destruct (create_icon_cases 512 icon_512 w2) as [(H2 & _ & _)|[[e H2]|(Hz & _)]];
      [rewrite H2 in Hmain|rewrite H2 in Hmain|discriminate Hz]
  end; injection Hmain as <- <-; cbn [fs stdout].
  - left. rewrite Hout, <- !app_assoc. split; [reflexivity|]. split; [reflexivity|].
    rewrite lookup_insert_ne by discriminate. rewrite !lookup_insert_eq. auto.
  - right; left. rewrite Hout, lookup_insert_eq. eauto.
Qed.

Lemma console_tells_what_was_written_witness :
  stdout (main empty_disk).2 = [Generated icon_192 192; Generated icon_512 512; AllGenerated]
  /\ stdout (main readonly_disk).2 = [].
Proof.
  split.
  - destruct (console_tells_what_was_written empty_disk _ _ (surjective_pairing _))
      as [(_ & H & _)|[([e He] & _)|([e He] & _)]];
      [exact H|vm_compute in He; discriminate|vm_compute in He; discriminate].
  - vm_compute. reflexivity.
Defined.
